(** * DOSMA data_io/format_io_utils.py: format resolution and generic loading

    A shallow embedding of [src/data_io/format_io_utils.py] and of the
    [os.path] and [str] operations it calls, followed by the properties of
    the format resolver and of the generic loader.

    Python [str] values are modelled as [string]; a character of the model
    is one byte of the UTF-8 spelling of the path.  The only characters the
    code searches for are ['/'] and ['.'], which are single bytes that never
    occur inside a multi-byte sequence, so indices and slices taken at them
    agree with Python's. *)

From Stdlib Require Import ZArith String Ascii List Bool Lia DecimalString.
Import ListNotations.

Local Open Scope string_scope.
Local Open Scope Z_scope.

(** ** Python [str] operations *)

(** [c in s] for a one-character [c]. *)
Fixpoint occurs (c : ascii) (s : string) : bool :=
  match s with
  | EmptyString => false
  | String a r => Ascii.eqb a c || occurs c r
  end.

(** [s.rfind(c)] for a one-character [c]: the highest index of [c] in [s],
    or [-1]. *)
Fixpoint rfind (c : ascii) (s : string) : Z :=
  match s with
  | EmptyString => -1
  | String a r =>
      let k := rfind c r in
      if 0 <=? k then k + 1 else if Ascii.eqb a c then 0 else -1
  end.

(** [s[:n]] for [0 <= n]. *)
Fixpoint take (n : nat) (s : string) : string :=
  match n, s with
  | O, _ => EmptyString
  | S _, EmptyString => EmptyString
  | S k, String a r => String a (take k r)
  end.

(** [s[n:]] for [0 <= n]. *)
Fixpoint drop (n : nat) (s : string) : string :=
  match n, s with
  | O, _ => s
  | S _, EmptyString => EmptyString
  | S k, String _ r => drop k r
  end.

(** [s[lo:hi]] for [0 <= lo <= hi]. *)
Definition slice (lo hi : nat) (s : string) : string :=
  take (hi - lo) (drop lo s).

(** [s.startswith(t)]. *)
Definition startswith (s t : string) : bool := String.prefix t s.

(** [s.endswith(t)]. *)
Definition endswith (s t : string) : bool :=
  (String.length t <=? String.length s)%nat
  && String.eqb (drop (String.length s - String.length t) s) t.

(** [s * n]. *)
Fixpoint str_mul (s : string) (n : nat) : string :=
  match n with
  | O => EmptyString
  | S k => s ++ str_mul s k
  end.

(** [s.rstrip(c)] for a one-character [c]. *)
Fixpoint rstrip (c : ascii) (s : string) : string :=
  match s with
  | EmptyString => EmptyString
  | String a r =>
      match rstrip c r with
      | EmptyString => if Ascii.eqb a c then EmptyString else String a EmptyString
      | r' => String a r'
      end
  end.

(** [s.split(c, 1)] for a one-character [c]: at most one split, at the
    first occurrence of [c]. *)
Fixpoint split1 (c : ascii) (s : string) : list string :=
  match s with
  | EmptyString => [EmptyString]
  | String a r =>
      if Ascii.eqb a c then [EmptyString; r]
      else match split1 c r with
           | x :: t => String a x :: t
           | [] => []
           end
  end.

(** [s] is not empty and its last character is [c]. *)
Fixpoint last_is (c : ascii) (s : string) : bool :=
  match s with
  | EmptyString => false
  | String a EmptyString => Ascii.eqb a c
  | String _ r => last_is c r
  end.

(** Every character of [s] is [c]. *)
Fixpoint all_are (c : ascii) (s : string) : bool :=
  match s with
  | EmptyString => true
  | String a r => Ascii.eqb a c && all_are c r
  end.

(** ['%d' % n]. *)
Definition str_of_int (n : Z) : string := NilZero.string_of_int (Z.to_int n).

(** ** [os.path] (posixpath)

    The four functions follow CPython's [posixpath] and [genericpath]
    statement by statement, with [sep = '/'] and [extsep = '.']. *)

Definition sep : ascii := "/"%char.
Definition extsep : ascii := "."%char.

(** The [while] loop of [genericpath._splitext], run for the
    [dotIndex - filenameIndex] iterations it can take: [true] when it meets a
    character that is not [extsep] (the loop's early [return]), [false] when
    every character between the last separator and the last dot is a dot. *)
Fixpoint skip_leading_dots (p : string) (filenameIndex : nat) (iterations : nat) : bool :=
  match iterations with
  | O => false
  | S k =>
      if negb (String.eqb (slice filenameIndex (filenameIndex + 1) p) (String extsep EmptyString))
      then true
      else skip_leading_dots p (S filenameIndex) k
  end.

(** [os.path.splitext(p)]. *)
Definition splitext (p : string) : string * string :=
  let sepIndex := rfind sep p in
  let dotIndex := rfind extsep p in
  if (sepIndex <? dotIndex)
     && skip_leading_dots p (Z.to_nat (sepIndex + 1)) (Z.to_nat (dotIndex - (sepIndex + 1)))
  then (take (Z.to_nat dotIndex) p, drop (Z.to_nat dotIndex) p)
  else (p, EmptyString).

(** [os.path.dirname(p)]. *)
Definition dirname (p : string) : string :=
  let i := Z.to_nat (rfind sep p + 1) in
  let head := take i p in
  if negb (String.eqb head EmptyString)
     && negb (String.eqb head (str_mul (String sep EmptyString) (String.length head)))
  then rstrip sep head
  else head.

(** [os.path.basename(p)]. *)
Definition basename (p : string) : string :=
  let i := Z.to_nat (rfind sep p + 1) in
  drop i p.

(** [os.path.join(a, b)]. *)
Definition join (a b : string) : string :=
  if startswith b (String sep EmptyString) then b
  else if String.eqb a EmptyString || endswith a (String sep EmptyString) then a ++ b
  else a ++ String sep EmptyString ++ b.

(** ** Exceptions and results *)

Inductive exn : Type :=
| ValueError (msg : string)
| NotImplementedError (msg : string)
| FileNotFoundError (msg : string)
| AssertionError (msg : string)
| AttributeError (msg : string).

Inductive result (A : Type) : Type :=
| Ok (a : A)
| Raise (e : exn).

Arguments Ok {A} a.
Arguments Raise {A} e.

Definition bind {A B : Type} (m : result A) (k : A -> result B) : result B :=
  match m with
  | Ok a => k a
  | Raise e => Raise e
  end.

Notation "x <- m ;; k" := (bind m (fun x => k))
  (at level 61, m at next level, right associativity).

(** ** Collaborators *)

(** The objects [get_reader] and [get_writer] construct. *)
Inductive DataReader : Type := NiftiReader | DicomReader.
Inductive DataWriter : Type := NiftiWriter | DicomWriter.

(** What a reader's [load] returns: one volume or a Python list of volumes. *)
Inductive VolumeSet (MedicalVolume : Type) : Type :=
| Single (vol : MedicalVolume)
| Multiple (vols : list MedicalVolume).

Arguments Single {MedicalVolume} vol.
Arguments Multiple {MedicalVolume} vols.

(** The names [format_io_utils.py] imports from [data_io.format_io],
    [data_io.dicom_io] and [data_io.nifti_io], none of which is part of the
    file: the format enumeration with its two members and Python's [==] on
    it, the registry, the two name recognizers and the readers' [load].
    A value of [ImageDataFormat] stands for whatever object a caller passes
    as a format (the annotation is not enforced at run time). *)
Class DataIO : Type := {
  ImageDataFormat : Type;
  ImageDataFormat_eq_dec : forall a b : ImageDataFormat, {a = b} + {a <> b};
  nifti : ImageDataFormat;
  dicom : ImageDataFormat;
  format_name : ImageDataFormat -> string;
  SUPPORTED_FORMATS : list ImageDataFormat;
  str_of_formats : list ImageDataFormat -> string;
  contains_dicom_extension : string -> bool;
  contains_nifti_extension : string -> bool;
  MedicalVolume : Type;
  reader_load : DataReader -> string -> result (VolumeSet MedicalVolume)
}.

(** The host the loader runs on: the filesystem as [os.path.exists] sees it,
    and Python's [repr] of a [str]. *)
Class Host : Type := {
  os_path_exists : string -> bool;
  repr : string -> string
}.

(** [str(l)] for a Python list of [str]. *)
Definition str_of_paths `{Host} (l : list string) : string :=
  "[" ++ String.concat ", " (map repr l) ++ "]".

(** ** The module: [data_io/format_io_utils.py] *)

Section FormatIOUtils.

Context `{IO : DataIO} `{H : Host}.

(** Python's [==] on formats, and [data_format in formats]. *)
Definition format_eqb (a b : ImageDataFormat) : bool :=
  if ImageDataFormat_eq_dec a b then true else false.

Definition format_in (data_format : ImageDataFormat) (formats : list ImageDataFormat) : bool :=
  existsb (format_eqb data_format) formats.

(** The message of the [ValueError] the three registry checks raise. *)
Definition unsupported_message : string :=
  "Only formats " ++ str_of_formats SUPPORTED_FORMATS ++ " are supported".

(** [get_reader(data_format)]; [Ok None] is the implicit [return None] when
    neither branch is taken. *)
Definition get_reader (data_format : ImageDataFormat) : result (option DataReader) :=
  if negb (format_in data_format SUPPORTED_FORMATS) then
    Raise (ValueError unsupported_message)
  else if format_eqb data_format nifti then Ok (Some NiftiReader)
  else if format_eqb data_format dicom then Ok (Some DicomReader)
  else Ok None.

(** [get_writer(data_format)]. *)
Definition get_writer (data_format : ImageDataFormat) : result (option DataWriter) :=
  if negb (format_in data_format SUPPORTED_FORMATS) then
    Raise (ValueError unsupported_message)
  else if format_eqb data_format nifti then Ok (Some NiftiWriter)
  else if format_eqb data_format dicom then Ok (Some DicomWriter)
  else Ok None.

(** [get_data_format(file_or_dirname)]. *)
Definition get_data_format (file_or_dirname : string) : result ImageDataFormat :=
  let '(filename_base, ext) := splitext file_or_dirname in
  if String.eqb ext "" || contains_dicom_extension file_or_dirname then Ok dicom
  else if contains_nifti_extension file_or_dirname then Ok nifti
  else Raise (ValueError ("Unknown data format for " ++ file_or_dirname)).

(** [convert_format_filename(file_or_dirname, new_data_format)]. *)
Definition convert_format_filename (file_or_dirname : string)
    (new_data_format : ImageDataFormat) : result string :=
  if negb (format_in new_data_format SUPPORTED_FORMATS) then
    Raise (ValueError unsupported_message)
  else
    current_format <- get_data_format file_or_dirname ;;
    if format_eqb current_format new_data_format then Ok file_or_dirname
    else if format_eqb current_format dicom && format_eqb new_data_format nifti then
      let dirname := dirname file_or_dirname in
      let basename := basename file_or_dirname in
      Ok (join dirname (basename ++ ".nii.gz"))
    else if format_eqb current_format nifti && format_eqb new_data_format dicom then
      let dirname := dirname file_or_dirname in
      let basename := basename file_or_dirname in
      let basename := nth 0 (split1 extsep basename) "" in
      Ok (join dirname basename)
    else
      Raise (NotImplementedError
               (format_name current_format ++ " --> " ++ format_name new_data_format
                ++ " not implemented.")).

(** The [for] loop of [get_filepath_variations], with the list it appends to. *)
Fixpoint variations_loop (file_or_dirname : string) (formats : list ImageDataFormat)
    (filepath_variations : list string) : result (list string) :=
  match formats with
  | [] => Ok filepath_variations
  | io_format :: rest =>
      fp <- convert_format_filename file_or_dirname io_format ;;
      variations_loop file_or_dirname rest (filepath_variations ++ [fp])%list
  end.

(** [get_filepath_variations(file_or_dirname)]. *)
Definition get_filepath_variations (file_or_dirname : string) : result (list string) :=
  variations_loop file_or_dirname SUPPORTED_FORMATS [].

(** The message of the [ValueError] raised on two existing variations. *)
Definition ambiguous_message (possible_filepaths : list string) : string :=
  "Ambiguous loading state - multiple possible files to load from "
  ++ str_of_paths possible_filepaths.

(** The probing loop of [generic_load] (lines 124-129) over the remaining
    paths [fps]: it returns the paths handed to [os.path.exists], in order,
    and either [exist_path] or the error. *)
Fixpoint probe_loop (possible_filepaths fps : list string) (exist_path : option string)
    (probed : list string) : list string * result (option string) :=
  match fps with
  | [] => (probed, Ok exist_path)
  | fp :: rest =>
      if os_path_exists fp then
        match exist_path with
        | Some _ => ((probed ++ [fp])%list, Raise (ValueError (ambiguous_message possible_filepaths)))
        | None => probe_loop possible_filepaths rest (Some fp) (probed ++ [fp])%list
        end
      else probe_loop possible_filepaths rest exist_path (probed ++ [fp])%list
  end.

(** Line 141-142 of [generic_load]: [if type(vols) is not list: vols = [vols]]. *)
Definition as_list (vols : VolumeSet MedicalVolume) : list MedicalVolume :=
  match vols with
  | Multiple l => l
  | Single v => [v]
  end.

(** Lines 138-148 of [generic_load]: the shape of the value returned for the
    loaded [vols]. *)
Definition shape_result (expected_num_volumes : option Z)
    (vols : VolumeSet MedicalVolume) : result (VolumeSet MedicalVolume) :=
  match expected_num_volumes with
  | None => Ok vols
  | Some expected =>
      let vols := as_list vols in
      if Z.of_nat (List.length vols) =? expected then
        match vols with
        | [v] => Ok (Single v)
        | _ => Ok (Multiple vols)
        end
      else
        Raise (AssertionError
                 ("Expected " ++ str_of_int expected ++ " volumes, got "
                  ++ str_of_int (Z.of_nat (List.length vols))))
  end.

(** Lines 131-136 of [generic_load]: from the outcome of the probing loop to
    the volumes the selected reader loads. *)
Definition load_existing (file_or_dirname : string) (exist_path : option string)
    : result (VolumeSet MedicalVolume) :=
  match exist_path with
  | None =>
      Raise (FileNotFoundError
               ("No file associated with basename " ++ basename file_or_dirname ++ " found"))
  | Some exist_path =>
      io_format <- get_data_format exist_path ;;
      r <- get_reader io_format ;;
      match r with
      | None => Raise (AttributeError "'NoneType' object has no attribute 'load'")
      | Some r => reader_load r exist_path
      end
  end.

(** Lines 121-136 of [generic_load]: the paths probed with [os.path.exists],
    in order, and the volumes loaded or the error raised. *)
Definition load_volumes (file_or_dirname : string)
    : list string * result (VolumeSet MedicalVolume) :=
  match get_filepath_variations file_or_dirname with
  | Raise e => ([], Raise e)
  | Ok possible_filepaths =>
      let '(probed, found) := probe_loop possible_filepaths possible_filepaths None [] in
      (probed,
       exist_path <- found ;;
       load_existing file_or_dirname exist_path)
  end.

(** [generic_load(file_or_dirname, expected_num_volumes)]: the paths probed
    with [os.path.exists], in order, and the outcome. *)
Definition generic_load (file_or_dirname : string) (expected_num_volumes : option Z)
    : list string * result (VolumeSet MedicalVolume) :=
  let '(probed, loaded) := load_volumes file_or_dirname in
  (probed,
   vols <- loaded ;;
   shape_result expected_num_volumes vols).

(** *** Assumptions on the imported names *)

(** The registry holds exactly the two conventions, in either order. *)
Definition registry_closed : Prop :=
  SUPPORTED_FORMATS = [nifti; dicom] \/ SUPPORTED_FORMATS = [dicom; nifti].

(** The two members of the enumeration are different values. *)
Definition members_distinct : Prop := nifti <> dicom.

(** The recognizers agree with the suffix [convert_format_filename] appends:
    a name that ends in [.nii.gz] is recognized as NIfTI and not as DICOM. *)
Definition suffix_recognized : Prop :=
  forall s : string,
    contains_nifti_extension (s ++ ".nii.gz") = true
    /\ contains_dicom_extension (s ++ ".nii.gz") = false.

End FormatIOUtils.

(** ** A concrete instance of the collaborators

    The properties below hold for every [DataIO] and [Host]; this instance
    runs the model on concrete paths. *)

(** The objects a caller can pass as a format: a member of the enumeration,
    or anything else. *)
Inductive PyObject : Type :=
| Member_nifti
| Member_dicom
| Other (description : string).

Definition PyObject_eq_dec (a b : PyObject) : {a = b} + {a <> b}.
Proof. decide equality. apply string_dec. Defined.

Definition PyObject_name (o : PyObject) : string :=
  match o with
  | Member_nifti => "nifti"
  | Member_dicom => "dicom"
  | Other d => d
  end.

(** Modelled from the spec: [contains_dicom_extension] of
    [data_io/dicom_io.py], which is not among the sources.  The path matches
    when its name carries one of an allow-list of directory-oriented
    extension markers; the module does not fix the list, and [.dcm] stands
    for it here. *)
Definition suffix_dicom (p : string) : bool := endswith p ".dcm".

(** Modelled from the spec: [contains_nifti_extension] of
    [data_io/nifti_io.py], which is not among the sources.  The path matches
    when its name ends in the fixed two-part suffix, [.nii.gz]. *)
Definition suffix_nifti (p : string) : bool := endswith p ".nii.gz".

(** A reader that serves three stored scans: three echoes in the directory
    [/data/scan], two in [/data/pair], one in [/data/one], and one volume in
    the file [/data/map.nii.gz]. *)
Definition stored_scans (r : DataReader) (p : string) : result (VolumeSet nat) :=
  match r with
  | DicomReader =>
      if String.eqb p "/data/scan" then Ok (Multiple [1; 2; 3]%nat)
      else if String.eqb p "/data/pair" then Ok (Multiple [4; 5]%nat)
      else if String.eqb p "/data/one" then Ok (Multiple [6]%nat)
      else Raise (FileNotFoundError p)
  | NiftiReader =>
      if String.eqb p "/data/map.nii.gz" then Ok (Single 7%nat)
      else Raise (FileNotFoundError p)
  end.

(** Modelled from the spec: [SUPPORTED_FORMATS] and [ImageDataFormat] of
    [data_io/format_io.py], which is not among the sources.  The registry is
    the closed set of the two conventions; the order chosen here is one of
    the two [registry_closed] allows. *)
Definition stored_io : DataIO := {|
  ImageDataFormat := PyObject;
  ImageDataFormat_eq_dec := PyObject_eq_dec;
  nifti := Member_nifti;
  dicom := Member_dicom;
  format_name := PyObject_name;
  SUPPORTED_FORMATS := [Member_nifti; Member_dicom];
  str_of_formats := fun l => "(" ++ String.concat ", " (map PyObject_name l) ++ ")";
  contains_dicom_extension := suffix_dicom;
  contains_nifti_extension := suffix_nifti;
  MedicalVolume := nat;
  reader_load := stored_scans
|}.

(** The same collaborators with a registry that also holds a format that is
    neither member of the enumeration. *)
Definition extended_io : DataIO := {|
  ImageDataFormat := PyObject;
  ImageDataFormat_eq_dec := PyObject_eq_dec;
  nifti := Member_nifti;
  dicom := Member_dicom;
  format_name := PyObject_name;
  SUPPORTED_FORMATS := [Member_nifti; Member_dicom; Other "tiff"];
  str_of_formats := fun l => "(" ++ String.concat ", " (map PyObject_name l) ++ ")";
  contains_dicom_extension := suffix_dicom;
  contains_nifti_extension := suffix_nifti;
  MedicalVolume := nat;
  reader_load := stored_scans
|}.

(** A filesystem on which exactly the paths of [files] exist; [repr] quotes
    a name that holds no quote, backslash or control character. *)
Definition host_with (files : list string) : Host := {|
  os_path_exists := fun p => existsb (String.eqb p) files;
  repr := fun s => "'" ++ s ++ "'"
|}.

(** * Properties *)

(** ** Strings *)

Lemma append_assoc (a b c : string) : (a ++ b) ++ c = a ++ (b ++ c).
Proof. induction a as [|x a IH]; simpl; [reflexivity | now rewrite IH]. Qed.

Lemma append_empty_r (s : string) : s ++ "" = s.
Proof. induction s as [|x s IH]; simpl; [reflexivity | now rewrite IH]. Qed.

Lemma length_append (a b : string) :
  String.length (a ++ b) = (String.length a + String.length b)%nat.
Proof. induction a as [|x a IH]; simpl; [reflexivity | now rewrite IH]. Qed.

Lemma take_append (a b : string) : take (String.length a) (a ++ b) = a.
Proof. induction a as [|x a IH]; simpl; [now destruct b | now rewrite IH]. Qed.

Lemma drop_append (a b : string) : drop (String.length a) (a ++ b) = b.
Proof. induction a as [|x a IH]; simpl; [reflexivity | exact IH]. Qed.

Lemma occurs_append (c : ascii) (a b : string) :
  occurs c (a ++ b) = occurs c a || occurs c b.
Proof.
  induction a as [|x a IH]; simpl; [reflexivity|].
  now rewrite IH, orb_assoc.
Qed.

Lemma append_longer (a b : string) : b <> "" -> a ++ b <> a.
Proof.
  intros Hb Heq. apply (f_equal String.length) in Heq.
  rewrite length_append in Heq. destruct b; [congruence | simpl in Heq; lia].
Qed.

(** *** [rfind] *)

Lemma rfind_bounds (c : ascii) (s : string) :
  -1 <= rfind c s < Z.of_nat (String.length s).
Proof.
  induction s as [|a s IH]; simpl String.length; simpl rfind; [lia|].
  destruct (Z.leb_spec 0 (rfind c s)); [lia|].
  destruct (Ascii.eqb a c); lia.
Qed.

Lemma rfind_absent (c : ascii) (s : string) :
  occurs c s = false -> rfind c s = -1.
Proof.
  induction s as [|a s IH]; simpl; [reflexivity|].
  intros Hocc. apply orb_false_elim in Hocc as [Ha Hs].
  rewrite (IH Hs), Ha. reflexivity.
Qed.

Lemma rfind_present (c : ascii) (s : string) :
  occurs c s = true -> 0 <= rfind c s.
Proof.
  induction s as [|a s IH]; simpl; [discriminate|].
  intros Hocc. destruct (Z.leb_spec 0 (rfind c s)) as [Hk|Hk]; [lia|].
  destruct (occurs c s); [specialize (IH eq_refl); lia|].
  rewrite orb_false_r in Hocc. rewrite Hocc. lia.
Qed.

Lemma rfind_append_absent (c : ascii) (s t : string) :
  occurs c t = false -> rfind c (s ++ t) = rfind c s.
Proof.
  intros Ht. induction s as [|a s IH]; simpl.
  - now apply rfind_absent.
  - now rewrite IH.
Qed.

Lemma rfind_append_char (c : ascii) (s : string) :
  rfind c (s ++ String c "") = Z.of_nat (String.length s).
Proof.
  induction s as [|a s IH].
  - simpl. now rewrite Ascii.eqb_refl.
  - simpl String.length. simpl rfind. rewrite IH.
    destruct (Z.leb_spec 0 (Z.of_nat (String.length s))); lia.
Qed.

Lemma rfind_last (c : ascii) (s t : string) :
  occurs c t = false -> rfind c (s ++ String c t) = Z.of_nat (String.length s).
Proof.
  intros Ht.
  change (String c t) with (String c "" ++ t).
  rewrite <- append_assoc, rfind_append_absent by exact Ht.
  apply rfind_append_char.
Qed.

Lemma rfind_split (c : ascii) (s : string) :
  0 <= rfind c s ->
  exists pre post, s = pre ++ String c post /\ occurs c post = false.
Proof.
  induction s as [|a s IH]; simpl; [lia|].
  destruct (Z.leb_spec 0 (rfind c s)) as [Hk|Hk].
  - intros _. destruct (IH Hk) as (pre & post & -> & Hpost).
    exists (String a pre), post. split; [reflexivity | exact Hpost].
  - destruct (Ascii.eqb_spec a c) as [->|Hne]; [|lia].
    intros _. exists "", s. split; [reflexivity|].
    destruct (occurs c s) eqn:Hocc; [|reflexivity].
    apply rfind_present in Hocc. lia.
Qed.

(** Every string either holds no [c], or splits at its last [c]. *)
Lemma last_occurrence (c : ascii) (s : string) :
  occurs c s = false
  \/ exists pre post, s = pre ++ String c post /\ occurs c post = false.
Proof.
  destruct (occurs c s) eqn:Hocc; [right | now left].
  apply rfind_split. now apply rfind_present.
Qed.

(** *** [startswith], [endswith], [str_mul], [rstrip] *)

Lemma startswith_char (c : ascii) (b : string) :
  occurs c b = false -> startswith b (String c "") = false.
Proof.
  destruct b as [|a b]; simpl; [reflexivity|].
  intros Hocc. apply orb_false_elim in Hocc as [Ha _].
  unfold startswith; simpl. destruct (ascii_dec c a) as [->|]; [|reflexivity].
  now rewrite Ascii.eqb_refl in Ha.
Qed.

Lemma endswith_char (c : ascii) (s : string) :
  endswith s (String c "") = last_is c s.
Proof.
  unfold endswith. induction s as [|a s IH]; [reflexivity|].
  destruct s as [|b s].
  - simpl. now destruct (Ascii.eqb a c).
  - change (last_is c (String a (String b s))) with (last_is c (String b s)).
    rewrite <- IH. simpl. now rewrite Nat.sub_0_r.
Qed.

Lemma last_is_split (c : ascii) (s : string) :
  last_is c s = true -> exists s', s = s' ++ String c "".
Proof.
  induction s as [|a s IH]; [discriminate|].
  destruct s as [|b s].
  - simpl. intros Ha. apply Ascii.eqb_eq in Ha as ->. now exists "".
  - intros Hl. destruct (IH Hl) as [s' Hs']. exists (String a s').
    simpl. now rewrite <- Hs'.
Qed.

Lemma str_mul_all (c : ascii) (s : string) :
  String.eqb s (str_mul (String c "") (String.length s)) = all_are c s.
Proof.
  induction s as [|a s IH]; [reflexivity|].
  simpl. rewrite IH. reflexivity.
Qed.

Lemma all_are_append (c : ascii) (a b : string) :
  all_are c (a ++ b) = all_are c a && all_are c b.
Proof.
  induction a as [|x a IH]; simpl; [reflexivity|].
  now rewrite IH, andb_assoc.
Qed.

Lemma all_are_last (c : ascii) (s : string) :
  all_are c s = true -> s <> "" -> last_is c s = true.
Proof.
  induction s as [|a s IH]; [congruence|].
  simpl. intros Hall _. apply andb_prop in Hall as [Ha Hs].
  destruct s as [|b s]; [exact Ha|].
  apply IH; [exact Hs | discriminate].
Qed.

Lemma rstrip_append_char (c : ascii) (s : string) :
  rstrip c (s ++ String c "") = rstrip c s.
Proof.
  induction s as [|a s IH]; simpl.
  - now rewrite Ascii.eqb_refl.
  - now rewrite IH.
Qed.

Lemma rstrip_fixed (c : ascii) (s : string) :
  last_is c s = false -> rstrip c s = s.
Proof.
  induction s as [|a s IH]; [reflexivity|].
  destruct s as [|b s].
  - simpl. now intros ->.
  - intros Hl. change (last_is c (String a (String b s))) with (last_is c (String b s)) in Hl.
    change (rstrip c (String a (String b s)))
      with (match rstrip c (String b s) with
            | "" => if Ascii.eqb a c then "" else String a ""
            | String x r => String a (String x r)
            end).
    now rewrite (IH Hl).
Qed.

Lemma rstrip_last (c : ascii) (s : string) : last_is c (rstrip c s) = false.
Proof.
  induction s as [|a s IH]; [reflexivity|].
  simpl. destruct (rstrip c s) as [|b r] eqn:Hr.
  - destruct (Ascii.eqb a c) eqn:Ha; [reflexivity | simpl; exact Ha].
  - exact IH.
Qed.

Lemma rstrip_empty (c : ascii) (s : string) :
  rstrip c s = "" -> all_are c s = true.
Proof.
  induction s as [|a s IH]; [reflexivity|].
  simpl. destruct (rstrip c s) as [|b r]; [|discriminate].
  destruct (Ascii.eqb a c); [intros _; now apply IH | discriminate].
Qed.

(** *** [split1] *)

Lemma split1_nonempty (c : ascii) (s : string) : split1 c s <> [].
Proof.
  induction s as [|a s IH]; simpl; [discriminate|].
  destruct (Ascii.eqb a c); [discriminate|].
  destruct (split1 c s); [congruence | discriminate].
Qed.

Lemma split1_first (c : ascii) (s : string) :
  exists rest,
    s = nth 0 (split1 c s) "" ++ rest
    /\ occurs c (nth 0 (split1 c s) "") = false
    /\ (rest = "" \/ exists r, rest = String c r).
Proof.
  induction s as [|a s IH].
  - exists "". repeat split; auto.
  - simpl. destruct (Ascii.eqb_spec a c) as [->|Hne].
    + exists (String c s). repeat split; eauto.
    + destruct IH as (rest & Hs & Hocc & Hrest).
      pose proof (split1_nonempty c s) as Hnil.
      destruct (split1 c s) as [|x t]; [congruence|]. simpl in *.
      exists rest. rewrite <- Hs. repeat split; [|exact Hrest].
      apply Ascii.eqb_neq in Hne. now rewrite Hne.
Qed.

(** ** [os.path] *)

(** The index after the last separator, when [p] splits there. *)
Lemma after_last_sep (s t : string) :
  occurs sep t = false ->
  Z.to_nat (rfind sep (s ++ String sep t) + 1) = String.length (s ++ String sep "").
Proof.
  intros Ht. rewrite rfind_last by exact Ht.
  rewrite length_append. simpl. lia.
Qed.

Lemma split_at_sep (s t : string) : s ++ String sep t = (s ++ String sep "") ++ t.
Proof. now rewrite append_assoc. Qed.

Lemma basename_plain (p : string) : occurs sep p = false -> basename p = p.
Proof. intros Hp. unfold basename. now rewrite rfind_absent. Qed.

Lemma basename_split (s t : string) :
  occurs sep t = false -> basename (s ++ String sep t) = t.
Proof.
  intros Ht. unfold basename. rewrite after_last_sep by exact Ht.
  rewrite (split_at_sep s t). apply drop_append.
Qed.

Lemma basename_no_sep (p : string) : occurs sep (basename p) = false.
Proof.
  destruct (last_occurrence sep p) as [Hp | (s & t & -> & Ht)].
  - now rewrite basename_plain.
  - now rewrite basename_split.
Qed.

Lemma dirname_plain (p : string) : occurs sep p = false -> dirname p = "".
Proof. intros Hp. unfold dirname. now rewrite rfind_absent. Qed.

Lemma dirname_split (s t : string) :
  occurs sep t = false ->
  dirname (s ++ String sep t) =
  if all_are sep (s ++ String sep "") then s ++ String sep ""
  else rstrip sep (s ++ String sep "").
Proof.
  intros Ht. unfold dirname. rewrite after_last_sep by exact Ht.
  rewrite (split_at_sep s t), take_append, str_mul_all.
  assert (Hne : String.eqb (s ++ String sep "") "" = false).
  { apply String.eqb_neq. destruct s; discriminate. }
  rewrite Hne. simpl. now destruct (all_are sep (s ++ String sep "")).
Qed.

(** The three shapes [os.path.dirname] returns: nothing, a run of
    separators, or a path that does not end in a separator. *)
Lemma dirname_cases (p : string) :
  dirname p = ""
  \/ (dirname p <> "" /\ all_are sep (dirname p) = true)
  \/ (dirname p <> "" /\ last_is sep (dirname p) = false).
Proof.
  unfold dirname. set (head := take _ p). rewrite str_mul_all.
  destruct (String.eqb_spec head "") as [He|Hne]; [now left|].
  destruct (all_are sep head) eqn:Hall; simpl.
  - right; left. now split.
  - right; right. split; [|apply rstrip_last].
    intros Hr. apply rstrip_empty in Hr. congruence.
Qed.

(** Joining a directory of one of these shapes with a name that holds no
    separator gives a path whose parent is that directory and whose base
    name is that name. *)
Lemma join_parent (d b : string) :
  d = "" \/ (d <> "" /\ all_are sep d = true) \/ (d <> "" /\ last_is sep d = false) ->
  occurs sep b = false ->
  dirname (join d b) = d /\ basename (join d b) = b.
Proof.
  intros Hd Hb. unfold join.
  rewrite (startswith_char sep b Hb), endswith_char.
  destruct Hd as [-> | [[Hne Hall] | [Hne Hlast]]].
  - simpl. split; [now apply dirname_plain | now apply basename_plain].
  - apply String.eqb_neq in Hne as Hneb. rewrite Hneb.
    rewrite (all_are_last sep d Hall Hne). simpl.
    destruct (last_is_split sep d (all_are_last sep d Hall Hne)) as [d' ->].
    rewrite <- split_at_sep. split.
    + rewrite dirname_split by exact Hb. now rewrite Hall.
    + now apply basename_split.
  - apply String.eqb_neq in Hne as Hneb. rewrite Hneb, Hlast. simpl.
    split; [|now apply basename_split].
    rewrite dirname_split by exact Hb.
    assert (Hall : all_are sep d = false).
    { destruct (all_are sep d) eqn:Hall; [|reflexivity].
      rewrite (all_are_last sep d Hall Hne) in Hlast. discriminate. }
    rewrite all_are_append, Hall. simpl.
    rewrite rstrip_append_char. now apply rstrip_fixed.
Qed.

(** *** [splitext] *)

Lemma splitext_no_dot (p : string) :
  occurs extsep (basename p) = false -> snd (splitext p) = "".
Proof.
  intros Hdot. unfold splitext.
  assert (Hlt : (rfind sep p <? rfind extsep p) = false).
  { apply Z.ltb_ge.
    destruct (last_occurrence sep p) as [Hp | (s & t & -> & Ht)].
    - rewrite basename_plain in Hdot by exact Hp.
      rewrite (rfind_absent _ _ Hdot). apply rfind_bounds.
    - rewrite basename_split in Hdot by exact Ht.
      rewrite (rfind_last sep s t Ht).
      rewrite (split_at_sep s t), (rfind_append_absent extsep _ t Hdot).
      pose proof (rfind_bounds extsep (s ++ String sep "")) as Hb.
      rewrite length_append in Hb. simpl in Hb. lia. }
  rewrite Hlt. reflexivity.
Qed.

Lemma splitext_dot (p : string) :
  snd (splitext p) <> "" -> occurs extsep (basename p) = true.
Proof.
  intros Hext. destruct (occurs extsep (basename p)) eqn:Hocc; [reflexivity|].
  now apply splitext_no_dot in Hocc.
Qed.

Lemma skip_leading_dots_hit (p : string) (k n i : nat) :
  (i <= k < i + n)%nat ->
  String.eqb (slice k (k + 1) p) (String extsep "") = false ->
  skip_leading_dots p i n = true.
Proof.
  revert i. induction n as [|n IH]; intros i Hk Hne; [lia|].
  simpl. destruct (String.eqb (slice i (i + 1) p) (String extsep "")) eqn:Hi;
    [|reflexivity].
  simpl. apply IH; [|exact Hne].
  destruct (Nat.eq_dec i k) as [->|]; [congruence | lia].
Qed.

(** A name that ends in a character other than a dot or a separator,
    followed by a dot and a suffix with neither, splits at that dot. *)
Lemma splitext_suffix (y t : string) (a : ascii) :
  a <> extsep -> a <> sep ->
  occurs sep t = false -> occurs extsep t = false ->
  splitext (y ++ String a (String extsep t)) = (y ++ String a "", String extsep t).
Proof.
  intros Hadot Hasep Hts Htd. unfold splitext.
  set (q := y ++ String a (String extsep t)).
  assert (Hq : q = (y ++ String a "") ++ String extsep t).
  { unfold q. now rewrite append_assoc. }
  assert (Hdot : rfind extsep q = Z.of_nat (String.length (y ++ String a ""))).
  { rewrite Hq. now apply rfind_last. }
  assert (Hsep : rfind sep q = rfind sep y).
  { unfold q. apply rfind_append_absent. simpl.
    apply Ascii.eqb_neq in Hasep. rewrite Hasep. simpl. exact Hts. }
  pose proof (rfind_bounds sep y) as Hb.
  rewrite length_append in Hdot. simpl String.length in Hdot.
  rewrite Hdot, Hsep.
  assert (Hlt : (rfind sep y <? Z.of_nat (String.length y + 1)) = true)
    by (apply Z.ltb_lt; lia).
  rewrite Hlt. simpl andb.
  rewrite (skip_leading_dots_hit q (String.length y)).
  - rewrite Nat2Z.id. replace (String.length y + 1)%nat
      with (String.length (y ++ String a "")) by (rewrite length_append; simpl; lia).
    rewrite Hq, take_append, drop_append. reflexivity.
  - lia.
  - unfold slice, q. rewrite drop_append.
    replace (String.length y + 1 - String.length y)%nat with 1%nat by lia.
    simpl. apply Ascii.eqb_neq in Hadot. now rewrite Hadot.
Qed.

(** A name to which [.nii.gz] was appended has the extension [.gz]. *)
Lemma splitext_nii_gz (x : string) : snd (splitext (x ++ ".nii.gz")) = ".gz".
Proof.
  change ".nii.gz" with (".ni" ++ String "i" (String extsep "gz")).
  rewrite <- append_assoc, splitext_suffix; [reflexivity | | | |];
    first [discriminate | reflexivity].
Qed.

(** Whatever the directory, [join] leaves an appended suffix at the end. *)
Lemma join_suffix (d b suffix : string) :
  exists x, join d (b ++ suffix) = x ++ suffix.
Proof.
  unfold join.
  destruct (startswith (b ++ suffix) (String sep "")); [now exists b|].
  destruct (String.eqb d "" || endswith d (String sep "")).
  - exists (d ++ b). now rewrite append_assoc.
  - exists (d ++ String sep "" ++ b). now rewrite !append_assoc.
Qed.

(** ** The format resolver *)

Section Resolver.

Context `{IO : DataIO}.

Lemma format_eqb_eq (a b : ImageDataFormat) : format_eqb a b = true <-> a = b.
Proof.
  unfold format_eqb. destruct (ImageDataFormat_eq_dec a b); split; congruence.
Qed.

Lemma format_eqb_refl (a : ImageDataFormat) : format_eqb a a = true.
Proof. now apply format_eqb_eq. Qed.

Lemma format_in_In (f : ImageDataFormat) (l : list ImageDataFormat) :
  format_in f l = true <-> In f l.
Proof.
  unfold format_in. rewrite existsb_exists. split.
  - intros (g & Hg & Heq). apply format_eqb_eq in Heq. now subst.
  - intros Hin. exists f. split; [exact Hin | apply format_eqb_refl].
Qed.

Lemma format_in_closed (c : ImageDataFormat) :
  registry_closed -> c = nifti \/ c = dicom -> format_in c SUPPORTED_FORMATS = true.
Proof.
  intros Hreg Hc. apply format_in_In.
  destruct Hreg as [-> | ->]; simpl; intuition.
Qed.

Lemma get_data_format_empty_ext (p : string) :
  snd (splitext p) = "" -> get_data_format p = Ok dicom.
Proof.
  unfold get_data_format. destruct (splitext p) as [base ext]. simpl.
  now intros ->.
Qed.

Lemma get_data_format_recognized (p : string) :
  snd (splitext p) <> "" -> contains_dicom_extension p = false ->
  contains_nifti_extension p = true ->
  get_data_format p = Ok nifti.
Proof.
  unfold get_data_format. destruct (splitext p) as [base ext]. simpl.
  intros Hext -> ->. apply String.eqb_neq in Hext. now rewrite Hext.
Qed.

Lemma get_data_format_unknown (p : string) :
  snd (splitext p) <> "" -> contains_dicom_extension p = false ->
  contains_nifti_extension p = false ->
  get_data_format p = Raise (ValueError ("Unknown data format for " ++ p)).
Proof.
  unfold get_data_format. destruct (splitext p) as [base ext]. simpl.
  intros Hext -> ->. apply String.eqb_neq in Hext. now rewrite Hext.
Qed.

Lemma get_data_format_members (p : string) (c : ImageDataFormat) :
  get_data_format p = Ok c -> c = nifti \/ c = dicom.
Proof.
  unfold get_data_format. destruct (splitext p) as [base ext].
  destruct (String.eqb ext "" || contains_dicom_extension p); [intros [= <-]; now right|].
  destruct (contains_nifti_extension p); [intros [= <-]; now left | discriminate].
Qed.

Lemma get_data_format_nifti_ext (p : string) :
  members_distinct -> get_data_format p = Ok nifti -> snd (splitext p) <> "".
Proof.
  intros Hdiff Hfmt Hext. rewrite (get_data_format_empty_ext p Hext) in Hfmt.
  injection Hfmt as Heq. now apply Hdiff.
Qed.

(** The stem [convert_format_filename] keeps of a base name: what stands
    before its first dot holds neither a dot nor a separator. *)
Lemma stem_plain (p : string) :
  occurs extsep (nth 0 (split1 extsep (basename p)) "") = false
  /\ occurs sep (nth 0 (split1 extsep (basename p)) "") = false.
Proof.
  destruct (split1_first extsep (basename p)) as (rest & Hb & Hdot & _).
  split; [exact Hdot|].
  pose proof (basename_no_sep p) as Hsep. rewrite Hb, occurs_append in Hsep.
  now apply orb_false_elim in Hsep.
Qed.

Lemma rename_dicom_nifti (p : string) :
  registry_closed -> members_distinct -> get_data_format p = Ok dicom ->
  convert_format_filename p nifti = Ok (join (dirname p) (basename p ++ ".nii.gz")).
Proof.
  intros Hreg Hdiff Hfmt. unfold convert_format_filename.
  rewrite (format_in_closed nifti Hreg) by now left. simpl.
  rewrite Hfmt. simpl.
  assert (Hne : format_eqb dicom nifti = false).
  { destruct (format_eqb dicom nifti) eqn:He; [|reflexivity].
    apply format_eqb_eq in He. now elim Hdiff. }
  now rewrite Hne, !format_eqb_refl.
Qed.

Lemma rename_nifti_dicom (p : string) :
  registry_closed -> members_distinct -> get_data_format p = Ok nifti ->
  convert_format_filename p dicom
  = Ok (join (dirname p) (nth 0 (split1 extsep (basename p)) "")).
Proof.
  intros Hreg Hdiff Hfmt. unfold convert_format_filename.
  rewrite (format_in_closed dicom Hreg) by now right. simpl.
  rewrite Hfmt. simpl.
  assert (Hne : format_eqb nifti dicom = false).
  { destruct (format_eqb nifti dicom) eqn:He; [|reflexivity].
    apply format_eqb_eq in He. now elim Hdiff. }
  now rewrite Hne, !format_eqb_refl.
Qed.

(** C4. [get_data_format] (Resolve) classifies a path by its name alone, in
    a fixed order: an empty extension or a name the DICOM recognizer accepts
    gives the directory-based convention; otherwise a name the NIfTI
    recognizer accepts gives the single-file convention; otherwise it raises
    the [ValueError] that names the path.  An empty extension gives the
    directory-based convention whatever the recognizers say. *)
Theorem get_data_format_priority (p : string) :
  (snd (splitext p) = "" \/ contains_dicom_extension p = true ->
   get_data_format p = Ok dicom)
  /\ (snd (splitext p) <> "" -> contains_dicom_extension p = false ->
      contains_nifti_extension p = true ->
      get_data_format p = Ok nifti)
  /\ (snd (splitext p) <> "" -> contains_dicom_extension p = false ->
      contains_nifti_extension p = false ->
      get_data_format p = Raise (ValueError ("Unknown data format for " ++ p))).
Proof.
  repeat split.
  - intros [Hext | Hrec]; [now apply get_data_format_empty_ext|].
    unfold get_data_format. destruct (splitext p) as [base ext].
    now rewrite Hrec, orb_true_r.
  - apply get_data_format_recognized.
  - apply get_data_format_unknown.
Qed.

(** C2. Whenever [convert_format_filename p c] (Rename) succeeds, classifying
    its result gives [c], for recognizers that agree with the appended
    suffix. *)
Theorem classify_after_rename (p q : string) (c : ImageDataFormat) :
  suffix_recognized ->
  convert_format_filename p c = Ok q ->
  get_data_format q = Ok c.
Proof.
  intros Hrec. unfold convert_format_filename.
  destruct (format_in c SUPPORTED_FORMATS); simpl; [|discriminate].
  destruct (get_data_format p) as [cur|e] eqn:Hcur; simpl; [|discriminate].
  destruct (format_eqb cur c) eqn:Hsame.
  { intros [= <-]. apply format_eqb_eq in Hsame. now subst. }
  destruct (format_eqb cur dicom && format_eqb c nifti) eqn:Hdn.
  { intros [= <-]. apply andb_prop in Hdn as [_ Hc]. apply format_eqb_eq in Hc. subst c.
    destruct (join_suffix (dirname p) (basename p) ".nii.gz") as [x ->].
    destruct (Hrec x) as [Hn Hd].
    apply get_data_format_recognized; [|exact Hd | exact Hn].
    rewrite splitext_nii_gz. discriminate. }
  destruct (format_eqb cur nifti && format_eqb c dicom) eqn:Hnd; [|discriminate].
  intros [= <-]. apply andb_prop in Hnd as [_ Hc]. apply format_eqb_eq in Hc. subst c.
  apply get_data_format_empty_ext, splitext_no_dot.
  destruct (stem_plain p) as [Hdot Hsep].
  destruct (join_parent (dirname p) _ (dirname_cases p) Hsep) as [_ ->].
  exact Hdot.
Qed.

(** C3. Renaming a path to the convention it already has returns it
    unchanged. *)
Theorem rename_to_own_convention (p : string) (c : ImageDataFormat) :
  registry_closed ->
  get_data_format p = Ok c ->
  convert_format_filename p c = Ok p.
Proof.
  intros Hreg Hfmt. unfold convert_format_filename.
  rewrite (format_in_closed c Hreg (get_data_format_members p c Hfmt)). simpl.
  rewrite Hfmt. simpl. now rewrite format_eqb_refl.
Qed.


(** C5. Renaming a directory-based path to the single-file convention
    appends [.nii.gz] to its base name under the same parent; renaming a
    single-file path to the directory-based convention keeps, under the same
    parent, what stands before the first dot of its base name.  So
    [/data/scan] becomes [/data/scan.nii.gz], [/data/scan.nii.gz] becomes
    [/data/scan], and [/data/scan.v2.nii.gz] is cut at its first dot. *)
Theorem rename_between_conventions (p : string) :
  registry_closed -> members_distinct -> suffix_recognized ->
  (get_data_format p = Ok dicom ->
   let q := join (dirname p) (basename p ++ ".nii.gz") in
   convert_format_filename p nifti = Ok q
   /\ dirname q = dirname p
   /\ basename q = basename p ++ ".nii.gz")
  /\ (get_data_format p = Ok nifti ->
      let stem := nth 0 (split1 extsep (basename p)) "" in
      let q := join (dirname p) stem in
      convert_format_filename p dicom = Ok q
      /\ dirname q = dirname p
      /\ basename q = stem
      /\ occurs extsep stem = false
      /\ exists rest, basename p = stem ++ String extsep rest)
  /\ convert_format_filename "/data/scan" nifti = Ok "/data/scan.nii.gz"
  /\ convert_format_filename "/data/scan.nii.gz" dicom = Ok "/data/scan"
  /\ convert_format_filename "/data/scan.v2.nii.gz" dicom = Ok "/data/scan".
Proof.
  intros Hreg Hdiff Hrec.
  assert (Hnii : forall x, get_data_format (x ++ ".nii.gz") = Ok nifti).
  { intros x. destruct (Hrec x) as [Hn Hd].
    apply get_data_format_recognized; [|exact Hd | exact Hn].
    rewrite splitext_nii_gz. discriminate. }
  split; [|split; [|split; [|split]]].
  - intros Hfmt q. split; [now apply rename_dicom_nifti|].
    apply join_parent; [apply dirname_cases|].
    rewrite occurs_append, basename_no_sep. reflexivity.
  - intros Hfmt stem q. destruct (stem_plain p) as [Hdot Hsep].
    split; [now apply rename_nifti_dicom|].
    destruct (join_parent (dirname p) stem (dirname_cases p) Hsep) as [Hd Hb].
    repeat split; [exact Hd | exact Hb | exact Hdot |].
    destruct (split1_first extsep (basename p)) as (rest & Hsplit & _ & Hrest).
    destruct Hrest as [-> | [r ->]]; [|now exists r].
    exfalso. rewrite append_empty_r in Hsplit.
    pose proof (splitext_dot p (get_data_format_nifti_ext p Hdiff Hfmt)) as Hocc.
    rewrite <- Hsplit in Hdot. congruence.
  - now rewrite rename_dicom_nifti by (auto; now apply get_data_format_empty_ext).
  - now rewrite rename_nifti_dicom by (auto; apply (Hnii "/data/scan")).
  - now rewrite rename_nifti_dicom by (auto; apply (Hnii "/data/scan.v2")).
Qed.

(** C6. For a format outside [SUPPORTED_FORMATS], [get_reader],
    [get_writer] and [convert_format_filename] each raise the [ValueError]
    whose message holds the supported formats; [convert_format_filename]
    does so for every path, classified or not. *)
Theorem unsupported_format_rejected (data_format : ImageDataFormat) :
  ~ In data_format SUPPORTED_FORMATS ->
  let e := ValueError ("Only formats " ++ str_of_formats SUPPORTED_FORMATS ++ " are supported") in
  get_reader data_format = Raise e
  /\ get_writer data_format = Raise e
  /\ forall p : string, convert_format_filename p data_format = Raise e.
Proof.
  intros Hout e.
  assert (Hin : format_in data_format SUPPORTED_FORMATS = false).
  { destruct (format_in data_format SUPPORTED_FORMATS) eqn:Hin; [|reflexivity].
    now apply format_in_In in Hin. }
  unfold get_reader, get_writer, convert_format_filename. rewrite Hin.
  repeat split.
Qed.

(** *** Variations *)

Lemma variations_loop_ok (p : string) (formats : list ImageDataFormat)
    (acc l : list string) :
  Forall2 (fun c q => convert_format_filename p c = Ok q) formats l ->
  variations_loop p formats acc = Ok (acc ++ l)%list.
Proof.
  intros Hall. revert acc.
  induction Hall as [|c q formats l Hc _ IH]; intros acc; simpl.
  - now rewrite app_nil_r.
  - rewrite Hc. simpl. rewrite IH, <- app_assoc. reflexivity.
Qed.

Lemma variations_loop_inv (p : string) (formats : list ImageDataFormat)
    (acc l : list string) :
  variations_loop p formats acc = Ok l ->
  exists l', l = (acc ++ l')%list
             /\ Forall2 (fun c q => convert_format_filename p c = Ok q) formats l'.
Proof.
  revert acc. induction formats as [|c formats IH]; intros acc; simpl.
  - intros [= <-]. exists []. split; [now rewrite app_nil_r | constructor].
  - destruct (convert_format_filename p c) as [q|e] eqn:Hc; simpl; [|discriminate].
    intros Hloop. destruct (IH _ Hloop) as (l' & -> & Hall).
    exists (q :: l'). split; [now rewrite <- app_assoc | now constructor].
Qed.

Lemma variations_loop_raise (p : string) (c : ImageDataFormat)
    (formats : list ImageDataFormat) (acc : list string) (e : exn) :
  convert_format_filename p c = Raise e ->
  variations_loop p (c :: formats) acc = Raise e.
Proof. intros Hc. simpl. now rewrite Hc. Qed.

Lemma convert_supported (p : string) (cur c : ImageDataFormat) :
  registry_closed -> get_data_format p = Ok cur -> c = nifti \/ c = dicom ->
  exists q, convert_format_filename p c = Ok q.
Proof.
  intros Hreg Hcur Hc. unfold convert_format_filename.
  rewrite (format_in_closed c Hreg Hc). simpl. rewrite Hcur. simpl.
  destruct (format_eqb cur c) eqn:Hsame; [eauto|].
  assert (Hne : cur <> c) by (intros ->; now rewrite format_eqb_refl in Hsame).
  destruct (get_data_format_members p cur Hcur) as [-> | ->], Hc as [-> | ->];
    try congruence; rewrite !format_eqb_refl.
  - destruct (format_eqb nifti dicom && format_eqb dicom nifti); simpl; eauto.
  - simpl. eauto.
Qed.

(** C7. On a path that [get_data_format] classifies, [get_filepath_variations]
    (AllVariations) returns one path per format of the registry, in the
    registry's order: the path [convert_format_filename] gives for that
    format. *)
Theorem variations_follow_registry (p : string) (cur : ImageDataFormat) :
  registry_closed ->
  get_data_format p = Ok cur ->
  exists l,
    get_filepath_variations p = Ok l
    /\ List.length l = List.length SUPPORTED_FORMATS
    /\ Forall2 (fun c q => convert_format_filename p c = Ok q) SUPPORTED_FORMATS l.
Proof.
  intros Hreg Hcur.
  assert (Hall : exists l,
             Forall2 (fun c q => convert_format_filename p c = Ok q) SUPPORTED_FORMATS l).
  { destruct (convert_supported p cur nifti Hreg Hcur) as [qn Hn]; [now left|].
    destruct (convert_supported p cur dicom Hreg Hcur) as [qd Hd]; [now right|].
    destruct Hreg as [-> | ->]; [exists [qn; qd] | exists [qd; qn]];
      repeat constructor; assumption. }
  destruct Hall as [l Hall]. exists l. repeat split; [|symmetry|exact Hall].
  - unfold get_filepath_variations. now rewrite (variations_loop_ok p _ [] l Hall).
  - eapply Forall2_length, Hall.
Qed.

(** The two spellings of a classified path differ: their base names do. *)
Lemma rename_differs (p qn qd : string) :
  members_distinct ->
  convert_format_filename p nifti = Ok qn ->
  convert_format_filename p dicom = Ok qd ->
  qn <> qd.
Proof.
  intros Hdiff. unfold convert_format_filename.
  destruct (format_in nifti SUPPORTED_FORMATS); simpl; [|discriminate].
  destruct (format_in dicom SUPPORTED_FORMATS); simpl; [|discriminate].
  destruct (get_data_format p) as [cur|e] eqn:Hcur; simpl; [|discriminate].
  assert (Hnd : format_eqb nifti dicom = false).
  { destruct (format_eqb nifti dicom) eqn:He; [|reflexivity].
    apply format_eqb_eq in He. now elim Hdiff. }
  assert (Hdn : format_eqb dicom nifti = false).
  { destruct (format_eqb dicom nifti) eqn:He; [|reflexivity].
    apply format_eqb_eq in He. now elim Hdiff. }
  destruct (get_data_format_members p cur Hcur) as [-> | ->];
    rewrite !format_eqb_refl; rewrite ?Hnd, ?Hdn; simpl.
  - intros [= <-] [= <-] Heq.
    destruct (stem_plain p) as [Hdot Hsep].
    destruct (join_parent (dirname p) _ (dirname_cases p) Hsep) as [_ Hb].
    rewrite <- Heq in Hb.
    pose proof (splitext_dot p (get_data_format_nifti_ext p Hdiff Hcur)) as Hocc.
    rewrite Hb in Hocc. congruence.
  - intros [= <-] [= <-] Heq.
    assert (Hsep : occurs sep (basename p ++ ".nii.gz") = false)
      by (rewrite occurs_append, basename_no_sep; reflexivity).
    destruct (join_parent (dirname p) _ (dirname_cases p) Hsep) as [_ Hb].
    rewrite Heq in Hb. symmetry in Hb. now apply append_longer in Hb.
Qed.

(** The variations of a classified path are pairwise different paths, so
    counting the variations that exist counts existing paths. *)
Theorem variations_distinct (p : string) (l : list string) :
  registry_closed -> members_distinct ->
  get_filepath_variations p = Ok l ->
  NoDup l.
Proof.
  intros Hreg Hdiff Hv. apply variations_loop_inv in Hv as (l' & -> & Hall).
  simpl. destruct Hreg as [Hr | Hr]; rewrite Hr in Hall;
    inversion Hall as [|c1 q1 f1 l1 Hc1 Hrest]; subst;
    inversion Hrest as [|c2 q2 f2 l2 Hc2 Hnil]; subst;
    inversion Hnil; subst.
  - pose proof (rename_differs p q1 q2 Hdiff Hc1 Hc2) as Hne.
    repeat constructor; simpl; intuition.
  - pose proof (rename_differs p q2 q1 Hdiff Hc2 Hc1) as Hne.
    repeat constructor; simpl; intuition.
Qed.

End Resolver.

(** ** The generic loader *)

Section Loader.

Context `{IO : DataIO} `{H : Host}.

Lemma generic_load_unfold (p : string) (expected : option Z) :
  generic_load p expected
  = (fst (load_volumes p),
     vols <- snd (load_volumes p) ;; shape_result expected vols).
Proof. unfold generic_load. now destruct (load_volumes p). Qed.

Lemma load_volumes_raise (p : string) (e : exn) :
  get_filepath_variations p = Raise e -> load_volumes p = ([], Raise e).
Proof. intros Hv. unfold load_volumes. now rewrite Hv. Qed.

Lemma variations_pair (p : string) (l : list string) :
  registry_closed -> get_filepath_variations p = Ok l ->
  exists a b, l = [a; b].
Proof.
  intros Hreg Hv. apply variations_loop_inv in Hv as (l' & -> & Hall).
  apply Forall2_length in Hall.
  assert (Hlen : List.length l' = 2%nat) by (destruct Hreg as [Hr | Hr]; now rewrite Hr in Hall).
  destruct l' as [|a [|b [|c l']]]; try discriminate. now exists a, b.
Qed.

Lemma probe_loop_none (all fps : list string) (exist_path : option string)
    (probed : list string) :
  Forall (fun fp => os_path_exists fp = false) fps ->
  probe_loop all fps exist_path probed = ((probed ++ fps)%list, Ok exist_path).
Proof.
  intros Hnone. revert probed.
  induction Hnone as [|fp fps Hfp _ IH]; intros probed; simpl.
  - now rewrite app_nil_r.
  - rewrite Hfp, IH, <- app_assoc. reflexivity.
Qed.

Lemma filter_nil_none (fps : list string) :
  filter os_path_exists fps = [] ->
  Forall (fun fp => os_path_exists fp = false) fps.
Proof.
  induction fps as [|fp fps IH]; simpl; [constructor|].
  destruct (os_path_exists fp) eqn:Hfp; [discriminate|].
  intros Hnil. constructor; [exact Hfp | now apply IH].
Qed.

Lemma probe_loop_single (all fps : list string) (fp : string) (probed : list string) :
  filter os_path_exists fps = [fp] ->
  probe_loop all fps None probed = ((probed ++ fps)%list, Ok (Some fp)).
Proof.
  revert probed. induction fps as [|a fps IH]; intros probed; simpl; [discriminate|].
  destruct (os_path_exists a) eqn:Ha.
  - intros [= -> Hrest]. rewrite (probe_loop_none all fps _ _ (filter_nil_none fps Hrest)).
    now rewrite <- app_assoc.
  - intros Hone. rewrite (IH _ Hone), <- app_assoc. reflexivity.
Qed.

Lemma probe_loop_several (all fps : list string) (exist_path : option string)
    (probed : list string) :
  (match exist_path with Some _ => 1 | None => 2 end
   <= List.length (filter os_path_exists fps))%nat ->
  exists probed',
    probe_loop all fps exist_path probed
    = (probed', Raise (ValueError (ambiguous_message all))).
Proof.
  revert exist_path probed.
  induction fps as [|a fps IH]; intros exist_path probed; simpl.
  - destruct exist_path; lia.
  - destruct (os_path_exists a) eqn:Ha; simpl.
    + destruct exist_path as [found|]; [eauto|].
      intros Hlen. apply IH. simpl. lia.
    + apply IH.
Qed.

(** C1. When more than one of the variations of a path exists on the
    filesystem, [generic_load] (Load) raises the [ValueError] of the
    ambiguous state, and the paths its message lists are exactly the
    existing variations. *)
Theorem ambiguous_source (p : string) (expected : option Z) (l : list string) :
  registry_closed ->
  get_filepath_variations p = Ok l ->
  (1 < List.length (filter os_path_exists l))%nat ->
  generic_load p expected
  = (l, Raise (ValueError
                 ("Ambiguous loading state - multiple possible files to load from "
                  ++ str_of_paths (filter os_path_exists l)))).
Proof.
  intros Hreg Hv Hmany.
  destruct (variations_pair p l Hreg Hv) as (a & b & ->).
  rewrite generic_load_unfold. unfold load_volumes. rewrite Hv.
  simpl in Hmany |- *.
  destruct (os_path_exists a), (os_path_exists b); simpl in Hmany; try lia.
  reflexivity.
Qed.

(** C10. A path that no recognizer accepts makes [generic_load] raise the
    [ValueError] of [get_data_format] while the variations are enumerated:
    no path is handed to [os.path.exists], whatever the filesystem holds. *)
Theorem unrecognized_before_probe (p : string) (expected : option Z) :
  SUPPORTED_FORMATS <> [] ->
  snd (splitext p) <> "" ->
  contains_dicom_extension p = false ->
  contains_nifti_extension p = false ->
  generic_load p expected
  = ([], Raise (ValueError ("Unknown data format for " ++ p))).
Proof.
  intros Hreg Hext Hd Hn.
  rewrite generic_load_unfold, (load_volumes_raise p (ValueError ("Unknown data format for " ++ p)));
    [reflexivity|].
  unfold get_filepath_variations.
  destruct SUPPORTED_FORMATS as [|c rest] eqn:Hsup; [congruence|].
  apply variations_loop_raise. unfold convert_format_filename.
  assert (Hin : format_in c SUPPORTED_FORMATS = true).
  { rewrite Hsup. apply format_in_In. now left. }
  rewrite Hin. simpl. now rewrite get_data_format_unknown.
Qed.

(** C8. When the reader's result has a length other than
    [expected_num_volumes], [generic_load] raises the [AssertionError] that
    gives both counts.  A bare volume is wrapped into a list of one first,
    so it counts as 1; a list counts as its length. *)
Theorem volume_count_mismatch (p : string) (probed : list string)
    (vols : VolumeSet MedicalVolume) (expected : Z) :
  load_volumes p = (probed, Ok vols) ->
  (forall v, vols = Single v -> expected <> 1 ->
   generic_load p (Some expected)
   = (probed,
      Raise (AssertionError
               ("Expected " ++ str_of_int expected ++ " volumes, got " ++ str_of_int 1))))
  /\ (forall l, vols = Multiple l -> Z.of_nat (List.length l) <> expected ->
      generic_load p (Some expected)
      = (probed,
         Raise (AssertionError
                  ("Expected " ++ str_of_int expected ++ " volumes, got "
                   ++ str_of_int (Z.of_nat (List.length l)))))).
Proof.
  intros Hload. split.
  - intros v -> Hne. rewrite generic_load_unfold, Hload.
    cbn [fst snd bind]. unfold shape_result, as_list. cbn [List.length].
    change (Z.of_nat 1) with 1.
    assert (Hneq : (1 =? expected) = false) by (apply Z.eqb_neq; congruence).
    now rewrite Hneq.
  - intros l -> Hne. rewrite generic_load_unfold, Hload. simpl.
    apply Z.eqb_neq in Hne. now rewrite Hne.
Qed.

(** C9. Without [expected_num_volumes], [generic_load] returns what the
    reader returned; with it, a validated length of 1 returns the single
    element itself, and a validated length above 1 returns the list as the
    reader gave it. *)
Theorem result_shaping (p : string) (probed : list string)
    (vols : VolumeSet MedicalVolume) :
  load_volumes p = (probed, Ok vols) ->
  generic_load p None = (probed, Ok vols)
  /\ (forall v, as_list vols = [v] ->
      generic_load p (Some 1) = (probed, Ok (Single v)))
  /\ (forall expected, 1 < expected ->
      Z.of_nat (List.length (as_list vols)) = expected ->
      vols = Multiple (as_list vols)
      /\ generic_load p (Some expected) = (probed, Ok vols)).
Proof.
  intros Hload. split; [|split].
  - now rewrite generic_load_unfold, Hload.
  - intros v Hv. rewrite generic_load_unfold, Hload. simpl. now rewrite Hv.
  - intros expected Hmany Hlen.
    destruct vols as [v|l]; simpl in Hlen; [lia|].
    split; [reflexivity|].
    rewrite generic_load_unfold, Hload. simpl.
    apply Z.eqb_eq in Hlen as Heq. rewrite Heq.
    destruct l as [|a [|b l]]; simpl in Hlen; [lia | lia | reflexivity].
Qed.

(** When no variation of the path exists, [generic_load] probes every
    variation and raises the [FileNotFoundError] that names the base name of
    the path. *)
Theorem source_not_found (p : string) (expected : option Z) (l : list string) :
  get_filepath_variations p = Ok l ->
  filter os_path_exists l = [] ->
  generic_load p expected
  = (l, Raise (FileNotFoundError
                 ("No file associated with basename " ++ basename p ++ " found"))).
Proof.
  intros Hv Hnone. rewrite generic_load_unfold. unfold load_volumes.
  rewrite Hv, (probe_loop_none l l None [] (filter_nil_none l Hnone)).
  reflexivity.
Qed.

(** Whatever the registry, two or more existing variations make
    [generic_load] raise the [ValueError] whose message lists every
    variation of the path. *)
Theorem ambiguous_lists_variations (p : string) (expected : option Z) (l : list string) :
  get_filepath_variations p = Ok l ->
  (1 < List.length (filter os_path_exists l))%nat ->
  exists probed,
    generic_load p expected
    = (probed, Raise (ValueError
                        ("Ambiguous loading state - multiple possible files to load from "
                         ++ str_of_paths l))).
Proof.
  intros Hv Hmany. rewrite generic_load_unfold. unfold load_volumes. rewrite Hv.
  destruct (probe_loop_several l l None []) as [probed Hprobe]; [exact Hmany|].
  rewrite Hprobe. now exists probed.
Qed.

(** When exactly one variation exists, the reader of the convention that
    path is classified as loads it: the DICOM reader a directory-based
    path, the NIfTI reader a single-file path. *)
Theorem single_source_dispatch (p fp : string) (l : list string) :
  registry_closed -> members_distinct ->
  get_filepath_variations p = Ok l ->
  filter os_path_exists l = [fp] ->
  (get_data_format fp = Ok dicom -> load_volumes p = (l, reader_load DicomReader fp))
  /\ (get_data_format fp = Ok nifti -> load_volumes p = (l, reader_load NiftiReader fp)).
Proof.
  intros Hreg Hdiff Hv Hone. unfold load_volumes.
  rewrite Hv, (probe_loop_single l l fp [] Hone). simpl.
  assert (Hdn : format_eqb dicom nifti = false).
  { destruct (format_eqb dicom nifti) eqn:He; [|reflexivity].
    apply format_eqb_eq in He. now elim Hdiff. }
  split; intros Hfmt; rewrite Hfmt; simpl; unfold get_reader.
  - rewrite (format_in_closed dicom Hreg) by now right.
    simpl. now rewrite Hdn, format_eqb_refl.
  - rewrite (format_in_closed nifti Hreg) by now left.
    simpl. now rewrite format_eqb_refl.
Qed.

End Loader.

(** ** Further properties of the resolver *)

(** *** The stem of a base name *)

Lemma stem_cons (c a : ascii) (s : string) :
  a <> c ->
  nth 0 (split1 c (String a s)) "" = String a (nth 0 (split1 c s) "").
Proof.
  intros Hne. simpl. apply Ascii.eqb_neq in Hne. rewrite Hne.
  pose proof (split1_nonempty c s) as Hnil.
  destruct (split1 c s); [congruence | reflexivity].
Qed.

Lemma stem_dotless (c : ascii) (s : string) :
  occurs c s = false -> nth 0 (split1 c s) "" = s.
Proof.
  induction s as [|a s IH]; [reflexivity|].
  simpl occurs. intros Hocc. apply orb_false_elim in Hocc as [Ha Hs].
  apply Ascii.eqb_neq in Ha. rewrite stem_cons by exact Ha. now rewrite IH.
Qed.

Lemma stem_append (c : ascii) (s r : string) :
  nth 0 (split1 c (s ++ String c r)) "" = nth 0 (split1 c s) "".
Proof.
  induction s as [|a s IH].
  - simpl. now rewrite Ascii.eqb_refl.
  - destruct (Ascii.eqb_spec a c) as [->|Hne].
    + simpl. now rewrite Ascii.eqb_refl.
    + change (String a s ++ String c r) with (String a (s ++ String c r)).
      now rewrite !stem_cons, IH by exact Hne.
Qed.

Lemma skip_leading_dots_all (pre dots rest : string) :
  all_are extsep dots = true ->
  skip_leading_dots (pre ++ dots ++ rest) (String.length pre) (String.length dots) = false.
Proof.
  revert pre. induction dots as [|a dots IH]; intros pre Hall; [reflexivity|].
  simpl in Hall. apply andb_prop in Hall as [Ha Hdots].
  apply Ascii.eqb_eq in Ha. subst a.
  simpl String.length. simpl skip_leading_dots.
  unfold slice at 1. rewrite drop_append.
  replace (String.length pre + 1 - String.length pre)%nat with 1%nat by lia.
  simpl. specialize (IH (pre ++ String extsep "") Hdots).
  rewrite length_append in IH. simpl in IH.
  rewrite append_assoc in IH. simpl in IH.
  replace (S (String.length pre)) with (String.length pre + 1)%nat by lia.
  exact IH.
Qed.

(** A base name whose only dots are leading ones has no extension. *)
Lemma splitext_leading_dots (p dots t : string) :
  basename p = dots ++ t ->
  all_are extsep dots = true ->
  occurs extsep t = false ->
  snd (splitext p) = "".
Proof.
  intros Hbase Hall Ht.
  destruct (String.eqb_spec dots "") as [-> | Hne].
  { apply splitext_no_dot. now rewrite Hbase. }
  destruct (last_is_split extsep dots (all_are_last extsep dots Hall Hne)) as [dots' Hd].
  assert (Hall' : all_are extsep dots' = true).
  { rewrite Hd, all_are_append in Hall. now apply andb_prop in Hall. }
  assert (Hsplit : exists pre,
             p = pre ++ dots' ++ String extsep t
             /\ Z.to_nat (rfind sep p + 1) = String.length pre
             /\ -1 <= rfind sep p).
  { destruct (last_occurrence sep p) as [Hp | (s & b & -> & Hb)].
    - exists "". rewrite basename_plain in Hbase by exact Hp.
      rewrite (rfind_absent sep p Hp). repeat split; [|lia].
      rewrite Hbase, Hd, append_assoc. reflexivity.
    - exists (s ++ String sep ""). rewrite basename_split in Hbase by exact Hb.
      rewrite (after_last_sep s b Hb), (rfind_last sep s b Hb). repeat split; [|lia].
      rewrite Hbase, Hd, !append_assoc. reflexivity. }
  destruct Hsplit as (pre & Hp & Hidx & Hlow).
  unfold splitext.
  assert (Hdot : rfind extsep p = Z.of_nat (String.length (pre ++ dots'))).
  { rewrite Hp, <- append_assoc. now apply rfind_last. }
  assert (Hskip : skip_leading_dots p (String.length pre) (String.length dots') = false).
  { rewrite Hp. now apply skip_leading_dots_all. }
  rewrite Hidx.
  replace (Z.to_nat (rfind extsep p - (rfind sep p + 1))) with (String.length dots')
    by (rewrite Hdot, length_append; lia).
  now rewrite Hskip, andb_false_r.
Qed.

Section ResolverComposition.

Context `{IO : DataIO}.

(** How a successful [convert_format_filename] came about. *)
Lemma convert_cases (p q : string) (c : ImageDataFormat) :
  convert_format_filename p c = Ok q ->
  format_in c SUPPORTED_FORMATS = true
  /\ exists cur,
       get_data_format p = Ok cur
       /\ ((cur = c /\ q = p)
           \/ (cur = dicom /\ c = nifti /\ q = join (dirname p) (basename p ++ ".nii.gz"))
           \/ (cur = nifti /\ c = dicom
               /\ q = join (dirname p) (nth 0 (split1 extsep (basename p)) ""))).
Proof.
  unfold convert_format_filename.
  destruct (format_in c SUPPORTED_FORMATS); simpl; [|discriminate].
  destruct (get_data_format p) as [cur|e]; simpl; [|discriminate].
  intros Hq. split; [reflexivity|]. exists cur. split; [reflexivity|].
  destruct (format_eqb cur c) eqn:Hsame.
  { apply format_eqb_eq in Hsame. injection Hq as <-. now left. }
  destruct (format_eqb cur dicom && format_eqb c nifti) eqn:Hdn.
  { apply andb_prop in Hdn as [Hd Hn]. apply format_eqb_eq in Hd, Hn.
    injection Hq as <-. right; left. now repeat split. }
  destruct (format_eqb cur nifti && format_eqb c dicom) eqn:Hnd; [|discriminate].
  apply andb_prop in Hnd as [Hn Hd]. apply format_eqb_eq in Hd, Hn.
  injection Hq as <-. right; right. now repeat split.
Qed.

(** The directory-based spelling is classified as such by its name alone. *)
Lemma directory_spelling_format (p : string) :
  get_data_format (join (dirname p) (nth 0 (split1 extsep (basename p)) "")) = Ok dicom.
Proof.
  apply get_data_format_empty_ext, splitext_no_dot.
  destruct (stem_plain p) as [Hdot Hsep].
  destruct (join_parent (dirname p) _ (dirname_cases p) Hsep) as [_ ->].
  exact Hdot.
Qed.

Lemma file_spelling_format (d b : string) :
  suffix_recognized ->
  get_data_format (join d (b ++ ".nii.gz")) = Ok nifti.
Proof.
  intros Hrec. destruct (join_suffix d b ".nii.gz") as [x ->].
  destruct (Hrec x) as [Hn Hd].
  apply get_data_format_recognized; [|exact Hd | exact Hn].
  rewrite splitext_nii_gz. discriminate.
Qed.

Lemma get_data_format_raise (p : string) (e : exn) :
  get_data_format p = Raise e -> e = ValueError ("Unknown data format for " ++ p).
Proof.
  unfold get_data_format. destruct (splitext p) as [base ext].
  destruct (String.eqb ext "" || contains_dicom_extension p); [discriminate|].
  destruct (contains_nifti_extension p); [discriminate | now intros [= <-]].
Qed.

Lemma renamed_ready (p q : string) (c : ImageDataFormat) :
  suffix_recognized ->
  convert_format_filename p c = Ok q ->
  format_in c SUPPORTED_FORMATS = true /\ get_data_format q = Ok c.
Proof.
  intros Hrec Hconv.
  destruct (convert_cases p q c Hconv) as (Hin & cur & Hcur & Hcase).
  split; [exact Hin|].
  destruct Hcase as [[-> ->] | [(_ & -> & ->) | (_ & -> & ->)]].
  - exact Hcur.
  - now apply file_spelling_format.
  - apply directory_spelling_format.
Qed.

Lemma convert_own (p : string) (cur : ImageDataFormat) :
  get_data_format p = Ok cur ->
  format_in cur SUPPORTED_FORMATS = true ->
  convert_format_filename p cur = Ok p.
Proof.
  intros Hcur Hin. unfold convert_format_filename.
  rewrite Hin, Hcur. simpl. now rewrite format_eqb_refl.
Qed.

(** Renaming is idempotent: a path renamed to a convention is already the
    spelling of that convention, so renaming it again changes nothing. *)
Theorem rename_idempotent (p q : string) (c : ImageDataFormat) :
  suffix_recognized ->
  convert_format_filename p c = Ok q ->
  convert_format_filename q c = Ok q.
Proof.
  intros Hrec Hconv.
  destruct (renamed_ready p q c Hrec Hconv) as [Hin Hq].
  now apply convert_own.
Qed.

(** With the registry of the two formats, [convert_format_filename] has
    exactly two ways to fail, both a [ValueError]: the target is not
    registered, or the path is not recognized.  Its [NotImplementedError]
    cannot be raised. *)
Theorem rename_errors (p : string) (c : ImageDataFormat) (e : exn) :
  registry_closed ->
  convert_format_filename p c = Raise e ->
  (~ In c SUPPORTED_FORMATS
   /\ e = ValueError ("Only formats " ++ str_of_formats SUPPORTED_FORMATS ++ " are supported"))
  \/ (In c SUPPORTED_FORMATS
      /\ get_data_format p = Raise e
      /\ e = ValueError ("Unknown data format for " ++ p)).
Proof.
  intros Hreg Hconv.
  destruct (format_in c SUPPORTED_FORMATS) eqn:Hin.
  - right. apply format_in_In in Hin as HIn. split; [exact HIn|].
    destruct (get_data_format p) as [cur|e0] eqn:Hcur.
    + assert (Hc : c = nifti \/ c = dicom)
        by (destruct Hreg as [Hr | Hr]; rewrite Hr in HIn; simpl in HIn; intuition).
      destruct (convert_supported p cur c Hreg Hcur Hc) as [q Hq]. congruence.
    + unfold convert_format_filename in Hconv. rewrite Hin, Hcur in Hconv.
      simpl in Hconv. injection Hconv as <-.
      split; [reflexivity | now apply get_data_format_raise in Hcur].
  - left. split.
    + intros HIn. apply format_in_In in HIn. congruence.
    + unfold convert_format_filename in Hconv. rewrite Hin in Hconv.
      simpl in Hconv. now injection Hconv as <-.
Qed.

Lemma back_from_file (p : string) :
  registry_closed -> members_distinct -> suffix_recognized ->
  occurs extsep (basename p) = false ->
  join (dirname p) (basename p) = p ->
  convert_format_filename (join (dirname p) (basename p ++ ".nii.gz")) dicom = Ok p.
Proof.
  intros Hreg Hdiff Hrec Hdot Hnorm.
  set (n := join (dirname p) (basename p ++ ".nii.gz")).
  assert (Hsep : occurs sep (basename p ++ ".nii.gz") = false)
    by (rewrite occurs_append, basename_no_sep; reflexivity).
  destruct (join_parent (dirname p) _ (dirname_cases p) Hsep) as [Hd Hb].
  fold n in Hd, Hb.
  rewrite (rename_nifti_dicom n Hreg Hdiff (file_spelling_format _ _ Hrec)).
  rewrite Hd, Hb.
  change ".nii.gz" with (String extsep "nii.gz").
  now rewrite stem_append, (stem_dotless extsep _ Hdot), Hnorm.
Qed.

(** A directory-based path survives the round trip through the single-file
    spelling: when its base name has no dot and [os.path.join] rebuilds it
    from its [dirname] and [basename], renaming it to NIfTI and back to
    DICOM returns the path itself. *)
Theorem round_trip_directory (p : string) :
  registry_closed -> members_distinct -> suffix_recognized ->
  occurs extsep (basename p) = false ->
  join (dirname p) (basename p) = p ->
  convert_format_filename p nifti = Ok (join (dirname p) (basename p ++ ".nii.gz"))
  /\ convert_format_filename (join (dirname p) (basename p ++ ".nii.gz")) dicom = Ok p.
Proof.
  intros Hreg Hdiff Hrec Hdot Hnorm. split.
  - apply rename_dicom_nifti; [exact Hreg | exact Hdiff |].
    now apply get_data_format_empty_ext, splitext_no_dot.
  - now apply back_from_file.
Qed.

(** A single-file path survives the round trip through the directory-based
    spelling when nothing but the suffix follows the first dot of its base
    name: if the base name is a dot-free stem followed by [.nii.gz] and
    [os.path.join] rebuilds the path from its [dirname] and [basename],
    renaming it to DICOM and back to NIfTI returns the path itself. *)
Theorem round_trip_file (p stem : string) :
  registry_closed -> members_distinct -> suffix_recognized ->
  basename p = stem ++ ".nii.gz" ->
  occurs extsep stem = false ->
  join (dirname p) (basename p) = p ->
  convert_format_filename p dicom = Ok (join (dirname p) stem)
  /\ convert_format_filename (join (dirname p) stem) nifti = Ok p.
Proof.
  intros Hreg Hdiff Hrec Hbase Hdot Hnorm.
  assert (Hp : get_data_format p = Ok nifti).
  { pose proof (file_spelling_format (dirname p) stem Hrec) as Hf.
    now rewrite <- Hbase, Hnorm in Hf. }
  assert (Hstem : nth 0 (split1 extsep (basename p)) "" = stem).
  { rewrite Hbase. change ".nii.gz" with (String extsep "nii.gz").
    now rewrite stem_append, stem_dotless. }
  split.
  { rewrite (rename_nifti_dicom p Hreg Hdiff Hp). now rewrite Hstem. }
  assert (Hsep : occurs sep stem = false).
  { pose proof (basename_no_sep p) as Hs. rewrite Hbase, occurs_append in Hs.
    now apply orb_false_elim in Hs. }
  destruct (join_parent (dirname p) stem (dirname_cases p) Hsep) as [Hd Hb].
  set (d := join (dirname p) stem) in *.
  assert (Hdf : get_data_format d = Ok dicom).
  { apply get_data_format_empty_ext, splitext_no_dot. now rewrite Hb. }
  rewrite (rename_dicom_nifti d Hreg Hdiff Hdf), Hd, Hb, <- Hbase.
  now rewrite Hnorm.
Qed.

(** A path whose base name has no dot, or only leading dots (a hidden
    name), is classified as directory-based whatever the two recognizers
    answer. *)
Theorem hidden_name_is_directory (p dots name : string) :
  basename p = dots ++ name ->
  all_are extsep dots = true ->
  occurs extsep name = false ->
  get_data_format p = Ok dicom.
Proof.
  intros Hbase Hall Hname.
  apply get_data_format_empty_ext.
  exact (splitext_leading_dots p dots name Hbase Hall Hname).
Qed.

Lemma Forall2_pick {A B : Type} (R : A -> B -> Prop) (l1 : list A) (l2 : list B) (a : A) :
  Forall2 R l1 l2 -> In a l1 -> exists b, In b l2 /\ R a b.
Proof.
  induction 1 as [|x y l1 l2 Hxy _ IH]; simpl; [contradiction|].
  intros [-> | Hin]; [now exists y; auto|].
  destruct (IH Hin) as (b & Hb & Hab). exists b. auto.
Qed.

(** The path as given is always one of its own variations. *)
Theorem variations_contain_path (p : string) (l : list string) :
  registry_closed ->
  get_filepath_variations p = Ok l ->
  In p l.
Proof.
  intros Hreg Hv. apply variations_loop_inv in Hv as (l' & -> & Hall). simpl.
  assert (Hn : In nifti SUPPORTED_FORMATS) by (destruct Hreg as [-> | ->]; simpl; auto).
  destruct (Forall2_pick _ _ _ nifti Hall Hn) as (qn & _ & Hqn).
  destruct (convert_cases p qn nifti Hqn) as (_ & cur & Hcur & _).
  pose proof (get_data_format_members p cur Hcur) as Hmem.
  assert (Hin : In cur SUPPORTED_FORMATS).
  { destruct Hreg as [-> | ->], Hmem as [-> | ->]; simpl; auto. }
  destruct (Forall2_pick _ _ _ cur Hall Hin) as (q & Hq & Hconv).
  rewrite (convert_own p cur Hcur) in Hconv by now apply format_in_In.
  now injection Hconv as <-.
Qed.

(** Every variation is itself classified, as the format it was produced
    for: in [generic_load], classifying the path that exists cannot fail. *)
Theorem variations_classified (p : string) (l : list string) :
  suffix_recognized ->
  get_filepath_variations p = Ok l ->
  Forall2 (fun c q => get_data_format q = Ok c) SUPPORTED_FORMATS l.
Proof.
  intros Hrec Hv. apply variations_loop_inv in Hv as (l' & -> & Hall). simpl.
  induction Hall as [|c q formats l Hcq _ IH]; constructor; [|exact IH].
  now apply (renamed_ready p q c Hrec Hcq).
Qed.

(** [get_reader] and [get_writer] never disagree: they reject the same
    formats with the same error, and where one gives the NIfTI (DICOM)
    reader the other gives the NIfTI (DICOM) writer. *)
Theorem reader_writer_paired (data_format : ImageDataFormat) :
  (forall e, get_reader data_format = Raise e <-> get_writer data_format = Raise e)
  /\ (get_reader data_format = Ok (Some NiftiReader)
      <-> get_writer data_format = Ok (Some NiftiWriter))
  /\ (get_reader data_format = Ok (Some DicomReader)
      <-> get_writer data_format = Ok (Some DicomWriter))
  /\ (get_reader data_format = Ok None <-> get_writer data_format = Ok None).
Proof.
  unfold get_reader, get_writer.
  destruct (format_in data_format SUPPORTED_FORMATS),
    (format_eqb data_format nifti), (format_eqb data_format dicom); simpl;
    repeat split; intros; congruence.
Qed.

End ResolverComposition.

(** ** Further properties of the loader *)

Section LoaderComposition.

Context `{IO : DataIO} `{H : Host}.

(** What an error of a conversion to a registered format can be. *)
Lemma convert_registered_raise (p : string) (c : ImageDataFormat) (e : exn) :
  In c SUPPORTED_FORMATS ->
  convert_format_filename p c = Raise e ->
  (get_data_format p = Raise e /\ e = ValueError ("Unknown data format for " ++ p))
  \/ exists cur,
       get_data_format p = Ok cur
       /\ e = NotImplementedError
               (format_name cur ++ " --> " ++ format_name c ++ " not implemented.").
Proof.
  intros Hin. apply format_in_In in Hin. unfold convert_format_filename.
  rewrite Hin. simpl.
  destruct (get_data_format p) as [cur|e0] eqn:Hcur; simpl.
  - destruct (format_eqb cur c); [discriminate|].
    destruct (format_eqb cur dicom && format_eqb c nifti); [discriminate|].
    destruct (format_eqb cur nifti && format_eqb c dicom); [discriminate|].
    intros [= <-]. right. now exists cur.
  - intros [= <-]. left. split; [reflexivity | now apply get_data_format_raise in Hcur].
Qed.

Lemma variations_loop_raise_inv (p : string) (formats : list ImageDataFormat)
    (acc : list string) (e : exn) :
  variations_loop p formats acc = Raise e ->
  exists c, In c formats /\ convert_format_filename p c = Raise e.
Proof.
  revert acc. induction formats as [|c formats IH]; intros acc; simpl; [discriminate|].
  destruct (convert_format_filename p c) as [q|e0] eqn:Hc; simpl.
  - intros Hloop. destruct (IH _ Hloop) as (c' & Hin & Hc'). exists c'. auto.
  - intros [= <-]. exists c. auto.
Qed.

Lemma variations_loop_blocked (p : string) (formats : list ImageDataFormat)
    (acc : list string) (c : ImageDataFormat) :
  In c formats ->
  (exists e, convert_format_filename p c = Raise e) ->
  exists err, variations_loop p formats acc = Raise err.
Proof.
  intros Hin [e He]. revert acc.
  induction formats as [|x formats IH]; intros acc; simpl; [contradiction|].
  destruct (convert_format_filename p x) as [q|e0] eqn:Hx; simpl; [|eauto].
  destruct Hin as [-> | Hin]; [congruence | now apply IH].
Qed.

(** The probing loop: it probes a prefix of the paths it is given, stops
    early only to raise, raises nothing but the ambiguity error, and returns
    one of the paths it was given. *)
Lemma probe_loop_run (all fps : list string) (exist_path : option string)
    (probed probed' : list string) (r : result (option string)) :
  probe_loop all fps exist_path probed = (probed', r) ->
  exists probes rest,
    fps = (probes ++ rest)%list
    /\ probed' = (probed ++ probes)%list
    /\ (rest <> [] -> r = Raise (ValueError (ambiguous_message all)))
    /\ (forall e, r = Raise e -> e = ValueError (ambiguous_message all))
    /\ (forall fp, r = Ok (Some fp) -> exist_path = Some fp \/ In fp fps)
    /\ (List.length (filter os_path_exists probes)
        <= match exist_path with Some _ => 1 | None => 2 end)%nat.
Proof.
  revert exist_path probed.
  induction fps as [|fp fps IH]; intros exist_path probed; simpl.
  - intros [= <- <-]. exists [], [].
    split; [reflexivity|]. split; [now rewrite app_nil_r|].
    split; [congruence|]. split; [discriminate|].
    split; [intros fp [= ->]; now left|].
    simpl. destruct exist_path; lia.
  - destruct (os_path_exists fp) eqn:Hfp.
    + destruct exist_path as [found|].
      * intros [= <- <-]. exists [fp], fps.
        split; [reflexivity|]. split; [reflexivity|].
        split; [reflexivity|]. split; [now intros e [= <-]|].
        split; [discriminate|].
        simpl. rewrite Hfp. simpl. lia.
      * intros Hrun.
        destruct (IH _ _ Hrun) as (probes & rest & -> & -> & Hrest & Herr & Hfound & Hcount).
        exists (fp :: probes), rest.
        split; [reflexivity|]. split; [now rewrite <- app_assoc|].
        split; [exact Hrest|]. split; [exact Herr|].
        split.
        -- intros x Hx. right.
           destruct (Hfound x Hx) as [[= ->] | Hin]; [now left | now right].
        -- simpl. rewrite Hfp. simpl. lia.
    + intros Hrun.
      destruct (IH _ _ Hrun) as (probes & rest & -> & -> & Hrest & Herr & Hfound & Hcount).
      exists (fp :: probes), rest.
      split; [reflexivity|]. split; [now rewrite <- app_assoc|].
      split; [exact Hrest|]. split; [exact Herr|].
      split.
      * intros x Hx. destruct (Hfound x Hx) as [Hep | Hin]; [now left | right; now right].
      * simpl. now rewrite Hfp.
Qed.

(** [generic_load] hands to [os.path.exists] nothing but the variations of
    the path, in their order and each once: none when the enumeration fails,
    and otherwise a prefix of the variations that holds at most two existing
    paths and is cut short only by the ambiguity error. *)
Theorem probes_follow_variations (p : string) (expected : option Z) :
  (forall err, get_filepath_variations p = Raise err ->
     generic_load p expected = ([], Raise err))
  /\ (forall l, get_filepath_variations p = Ok l ->
      exists rest,
        l = (fst (generic_load p expected) ++ rest)%list
        /\ (List.length (filter os_path_exists (fst (generic_load p expected))) <= 2)%nat
        /\ (rest <> [] ->
            snd (generic_load p expected)
            = Raise (ValueError
                       ("Ambiguous loading state - multiple possible files to load from "
                        ++ str_of_paths l)))).
Proof.
  split.
  - intros err Hv. now rewrite generic_load_unfold, (load_volumes_raise p err Hv).
  - intros l Hv. rewrite generic_load_unfold. unfold load_volumes. rewrite Hv.
    destruct (probe_loop l l None []) as [probed found] eqn:Hrun.
    destruct (probe_loop_run _ _ _ _ _ _ Hrun) as (probes & rest & Hl & -> & Hrest & _ & _ & Hcount).
    exists rest. simpl. repeat split; [exact Hl | exact Hcount |].
    intros Hne. now rewrite (Hrest Hne).
Qed.

(** A load that succeeds with [expected_num_volumes = n] returns exactly [n]
    volumes: a single volume when [n] is 1, a list otherwise. *)
Theorem loaded_count (p : string) (n : Z) (probed : list string)
    (v : VolumeSet MedicalVolume) :
  generic_load p (Some n) = (probed, Ok v) ->
  Z.of_nat (List.length (as_list v)) = n
  /\ (n = 1 -> exists x, v = Single x)
  /\ (n <> 1 -> exists xs, v = Multiple xs).
Proof.
  rewrite generic_load_unfold. intros [= _ Hres].
  destruct (snd (load_volumes p)) as [vols|e]; simpl in Hres; [|discriminate].
  destruct (Z.eqb_spec (Z.of_nat (List.length (as_list vols))) n) as [Hn|]; [|discriminate].
  destruct (as_list vols) as [|a [|b t]]; injection Hres as <-; simpl in *;
    repeat split; eauto; intros; try lia.
Qed.

(** [expected_num_volumes] only filters: it changes neither the paths probed
    nor an error of the load, and a load that succeeds with it holds the
    volumes the load without it returns. *)
Theorem expected_only_filters (p : string) (n : Z) :
  fst (generic_load p (Some n)) = fst (generic_load p None)
  /\ (forall err, snd (generic_load p None) = Raise err ->
      snd (generic_load p (Some n)) = Raise err)
  /\ (forall v, snd (generic_load p (Some n)) = Ok v ->
      exists v', snd (generic_load p None) = Ok v' /\ as_list v' = as_list v).
Proof.
  rewrite !generic_load_unfold. simpl.
  destruct (snd (load_volumes p)) as [vols|e]; simpl.
  - repeat split; [discriminate|].
    intros v Hv. exists vols. split; [reflexivity|].
    destruct (Z.of_nat (List.length (as_list vols)) =? n); [|discriminate].
    destruct (as_list vols) as [|a [|b t]] eqn:Hl; now injection Hv as <-.
  - repeat split; [auto | discriminate].
Qed.

Lemma Forall2_pick_r {A B : Type} (R : A -> B -> Prop) (l1 : list A) (l2 : list B) (b : B) :
  Forall2 R l1 l2 -> In b l2 -> exists a, In a l1 /\ R a b.
Proof.
  induction 1 as [|x y l1 l2 Hxy _ IH]; simpl; [contradiction|].
  intros [-> | Hin]; [now exists x; auto|].
  destruct (IH Hin) as (a & Ha & Hab). exists a. auto.
Qed.

(** With the registry of the two formats, an existing variation is always
    loaded by some reader: its classification and [get_reader] cannot fail,
    and [get_reader] does not return [None]. *)
Lemma load_existing_reader (p fp : string) (l : list string) :
  registry_closed -> suffix_recognized ->
  get_filepath_variations p = Ok l ->
  In fp l ->
  exists r, load_existing p (Some fp) = reader_load r fp.
Proof.
  intros Hreg Hrec Hv Hin.
  apply variations_loop_inv in Hv as (l' & -> & Hall). simpl in Hin.
  destruct (Forall2_pick_r _ _ _ fp Hall Hin) as (c & Hc & Hconv).
  destruct (renamed_ready p fp c Hrec Hconv) as [Hreg_c Hfmt].
  unfold load_existing. rewrite Hfmt. simpl. unfold get_reader. rewrite Hreg_c. simpl.
  assert (Hmem : c = nifti \/ c = dicom)
    by (destruct Hreg as [Hr | Hr]; rewrite Hr in Hc; simpl in Hc; intuition).
  destruct Hmem as [-> | ->].
  - rewrite format_eqb_refl. now exists NiftiReader.
  - destruct (format_eqb dicom nifti); [now exists NiftiReader|].
    rewrite format_eqb_refl. now exists DicomReader.
Qed.

(** The errors of [generic_load].  With the registry of the two formats and
    recognizers that agree with the suffix, a failed load is one of five
    things: the path is not recognized, two variations exist, none exists,
    the count differs from [expected_num_volumes], or the reader itself
    raised.  The [ValueError] of an unsupported format, the
    [NotImplementedError] of a missing conversion and the [AttributeError]
    of a [None] reader never come out of it. *)
Theorem generic_load_errors (p : string) (expected : option Z)
    (probed : list string) (err : exn) :
  registry_closed -> suffix_recognized ->
  generic_load p expected = (probed, Raise err) ->
  (probed = [] /\ err = ValueError ("Unknown data format for " ++ p))
  \/ (exists l, get_filepath_variations p = Ok l
               /\ err = ValueError
                          ("Ambiguous loading state - multiple possible files to load from "
                           ++ str_of_paths l))
  \/ err = FileNotFoundError
             ("No file associated with basename " ++ basename p ++ " found")
  \/ (exists n k, expected = Some n /\ Z.of_nat k <> n
                 /\ err = AssertionError
                            ("Expected " ++ str_of_int n ++ " volumes, got "
                             ++ str_of_int (Z.of_nat k)))
  \/ (exists r fp, reader_load r fp = Raise err).
Proof.
  intros Hreg Hrec. rewrite generic_load_unfold. unfold load_volumes.
  destruct (get_filepath_variations p) as [l|e0] eqn:Hv.
  - destruct (probe_loop l l None []) as [probed' found] eqn:Hrun.
    destruct (probe_loop_run _ _ _ _ _ _ Hrun) as (_ & _ & _ & _ & _ & Herr & Hfound & _).
    cbn [fst snd]. destruct found as [[fp|]|e1]; cbn [bind].
    + destruct (Hfound fp eq_refl) as [Hnone | Hin]; [discriminate|].
      destruct (load_existing_reader p fp l Hreg Hrec Hv Hin) as [r Hload].
      rewrite Hload. destruct (reader_load r fp) as [vols|e2] eqn:Hr; cbn [bind].
      * destruct expected as [n|]; simpl; [|discriminate].
        destruct (Z.eqb_spec (Z.of_nat (List.length (as_list vols))) n) as [|Hne].
        -- destruct (as_list vols) as [|a [|b t]]; discriminate.
        -- intros [= _ <-]. do 3 right. left.
           exists n, (List.length (as_list vols)). now repeat split.
      * intros [= _ <-]. do 4 right. now exists r, fp.
    + intros [= _ <-]. do 2 right. now left.
    + intros [= _ <-]. right. left. exists l. split; [reflexivity|].
      exact (Herr e1 eq_refl).
  - simpl. intros [= <- <-]. left. split; [reflexivity|].
    apply variations_loop_raise_inv in Hv as (c & Hc & Hconv).
    destruct (convert_registered_raise p c e0 Hc Hconv) as [[_ He] | (cur & Hcur & _)];
      [exact He|].
    assert (Hmem : c = nifti \/ c = dicom)
      by (destruct Hreg as [Hr | Hr]; rewrite Hr in Hc; simpl in Hc; intuition).
    destruct (convert_supported p cur c Hreg Hcur Hmem) as [q Hq]. congruence.
Qed.

(** The path that exists decides the reader, not the spelling that was
    passed: when only the single-file variation exists the NIfTI reader
    loads it, and when only the directory-based variation exists the DICOM
    reader loads it. *)
Theorem existing_spelling_selects_reader (p qn qd : string) :
  registry_closed -> members_distinct -> suffix_recognized ->
  convert_format_filename p nifti = Ok qn ->
  convert_format_filename p dicom = Ok qd ->
  (os_path_exists qn = true -> os_path_exists qd = false ->
   snd (load_volumes p) = reader_load NiftiReader qn)
  /\ (os_path_exists qn = false -> os_path_exists qd = true ->
      snd (load_volumes p) = reader_load DicomReader qd).
Proof.
  intros Hreg Hdiff Hrec Hqn Hqd.
  destruct (renamed_ready p qn nifti Hrec Hqn) as [Hin_n Hfn].
  destruct (renamed_ready p qd dicom Hrec Hqd) as [Hin_d Hfd].
  assert (Hdn : format_eqb dicom nifti = false).
  { destruct (format_eqb dicom nifti) eqn:He; [|reflexivity].
    apply format_eqb_eq in He. now elim Hdiff. }
  assert (Hn : load_existing p (Some qn) = reader_load NiftiReader qn).
  { unfold load_existing. rewrite Hfn. simpl. unfold get_reader.
    rewrite Hin_n. simpl. now rewrite format_eqb_refl. }
  assert (Hd : load_existing p (Some qd) = reader_load DicomReader qd).
  { unfold load_existing. rewrite Hfd. simpl. unfold get_reader.
    rewrite Hin_d. simpl. now rewrite Hdn, format_eqb_refl. }
  unfold load_volumes, get_filepath_variations.
  split; intros Hen Hed; destruct Hreg as [Hr | Hr]; rewrite Hr; simpl;
    rewrite Hqn, Hqd; simpl; rewrite Hen, Hed; simpl; assumption.
Qed.

(** A registry that holds a format other than the two members breaks the
    loader: for that format [get_reader] and [get_writer] return [None]
    instead of raising, and [generic_load] fails on every path before it
    probes the filesystem, because no conversion to that format exists. *)
Theorem foreign_format_blocks_load (c : ImageDataFormat) :
  In c SUPPORTED_FORMATS -> c <> nifti -> c <> dicom ->
  get_reader c = Ok None
  /\ get_writer c = Ok None
  /\ forall p expected,
       exists err,
         generic_load p expected = ([], Raise err)
         /\ (err = ValueError ("Unknown data format for " ++ p)
             \/ exists msg, err = NotImplementedError msg).
Proof.
  intros Hin Hn Hd.
  assert (Hreg : format_in c SUPPORTED_FORMATS = true) by now apply format_in_In.
  assert (Hcn : format_eqb c nifti = false).
  { destruct (format_eqb c nifti) eqn:He; [|reflexivity]. now apply format_eqb_eq in He. }
  assert (Hcd : format_eqb c dicom = false).
  { destruct (format_eqb c dicom) eqn:He; [|reflexivity]. now apply format_eqb_eq in He. }
  split; [|split].
  - unfold get_reader. now rewrite Hreg, Hcn, Hcd.
  - unfold get_writer. now rewrite Hreg, Hcn, Hcd.
  - intros p expected.
    assert (Hc : exists e, convert_format_filename p c = Raise e).
    { unfold convert_format_filename. rewrite Hreg. simpl.
      destruct (get_data_format p) as [cur|e] eqn:Hcur; simpl; [|eauto].
      assert (Hne : format_eqb cur c = false).
      { destruct (format_eqb cur c) eqn:He; [|reflexivity].
        apply format_eqb_eq in He. subst cur.
        destruct (get_data_format_members p c Hcur); contradiction. }
      rewrite Hne, Hcn, Hcd, !andb_false_r. eauto. }
    destruct (variations_loop_blocked p SUPPORTED_FORMATS [] c Hin Hc) as [err Herr].
    exists err. split.
    + now rewrite generic_load_unfold, (load_volumes_raise p err Herr).
    + apply variations_loop_raise_inv in Herr as (x & Hx & Hconv).
      destruct (convert_registered_raise p x err Hx Hconv) as [[_ He] | (cur & _ & He)];
        [now left | right; eauto].
Qed.

Lemma probe_loop_nothing (all fps : list string) (exist_path : option string)
    (probed probed' : list string) :
  probe_loop all fps exist_path probed = (probed', Ok None) ->
  exist_path = None /\ filter os_path_exists fps = [].
Proof.
  revert exist_path probed.
  induction fps as [|fp fps IH]; intros exist_path probed; simpl.
  - intros [= _ ->]. now split.
  - destruct (os_path_exists fp) eqn:Hfp.
    + destruct exist_path as [found|]; [discriminate|].
      intros Hrun. now destruct (IH _ _ Hrun).
    + apply IH.
Qed.

(** Loading does not depend on the spelling passed.  For a directory-based
    path with a dot-free base name that [os.path.join] rebuilds from its
    parts, the path and its single-file spelling have the same variations,
    so [generic_load] probes the same paths for both and, when one of them
    exists, returns the same outcome for both. *)
Theorem spelling_independent (p : string) (expected : option Z) :
  registry_closed -> members_distinct -> suffix_recognized ->
  occurs extsep (basename p) = false ->
  join (dirname p) (basename p) = p ->
  get_filepath_variations (join (dirname p) (basename p ++ ".nii.gz"))
  = get_filepath_variations p
  /\ fst (generic_load (join (dirname p) (basename p ++ ".nii.gz")) expected)
     = fst (generic_load p expected)
  /\ (os_path_exists (join (dirname p) (basename p ++ ".nii.gz")) = true
      \/ os_path_exists p = true ->
      generic_load (join (dirname p) (basename p ++ ".nii.gz")) expected
      = generic_load p expected).
Proof.
  intros Hreg Hdiff Hrec Hdot Hnorm.
  set (n := join (dirname p) (basename p ++ ".nii.gz")).
  assert (Hp : get_data_format p = Ok dicom)
    by now apply get_data_format_empty_ext, splitext_no_dot.
  assert (Hpn : convert_format_filename p nifti = Ok n)
    by now apply rename_dicom_nifti.
  assert (Hpd : convert_format_filename p dicom = Ok p).
  { apply convert_own; [exact Hp | apply format_in_closed; auto]. }
  assert (Hnn : convert_format_filename n nifti = Ok n).
  { apply convert_own; [now apply file_spelling_format | apply format_in_closed; auto]. }
  assert (Hnd : convert_format_filename n dicom = Ok p) by now apply back_from_file.
  assert (Hv : get_filepath_variations n = get_filepath_variations p).
  { unfold get_filepath_variations.
    destruct Hreg as [Hr | Hr]; rewrite Hr; simpl; now rewrite Hpn, Hpd, Hnn, Hnd. }
  assert (Hl : exists l, get_filepath_variations p = Ok l /\ In n l /\ In p l).
  { unfold get_filepath_variations.
    destruct Hreg as [Hr | Hr]; rewrite Hr; simpl; rewrite Hpn, Hpd; simpl;
      eexists; (split; [reflexivity | simpl; auto]). }
  destruct Hl as (l & Hvl & Hin_n & Hin_p).
  split; [exact Hv|].
  rewrite !generic_load_unfold. unfold load_volumes. rewrite Hv, Hvl.
  destruct (probe_loop l l None []) as [probed found] eqn:Hrun. cbn [fst snd].
  split; [reflexivity|].
  intros Hex. f_equal.
  destruct found as [[fp|]|e]; [reflexivity | | reflexivity].
  exfalso. destruct (probe_loop_nothing _ _ _ _ _ Hrun) as [_ Hnone].
  apply filter_nil_none in Hnone. rewrite Forall_forall in Hnone.
  destruct Hex as [Hex | Hex]; [rewrite (Hnone n Hin_n) in Hex | rewrite (Hnone p Hin_p) in Hex];
    discriminate.
Qed.

End LoaderComposition.

(** ** The concrete instance *)

Lemma drop_append_add (s t : string) (n : nat) :
  drop (String.length s + n) (s ++ t) = drop n t.
Proof. induction s as [|a s IH]; simpl; [reflexivity | exact IH]. Qed.

Lemma endswith_append_short (s t u : string) :
  (String.length u <= String.length t)%nat ->
  endswith (s ++ t) u = endswith t u.
Proof.
  intros Hlen. unfold endswith. rewrite length_append.
  replace (String.length s + String.length t - String.length u)%nat
    with (String.length s + (String.length t - String.length u))%nat by lia.
  rewrite drop_append_add.
  apply Nat.leb_le in Hlen as Ht. rewrite Ht.
  assert (Hst : (String.length u <=? String.length s + String.length t)%nat = true)
    by (apply Nat.leb_le; lia).
  now rewrite Hst.
Qed.

Lemma stored_registry_closed : @registry_closed stored_io.
Proof. left. reflexivity. Qed.

Lemma stored_members_distinct : @members_distinct stored_io.
Proof. discriminate. Qed.

Lemma stored_suffix_recognized : @suffix_recognized stored_io.
Proof.
  intros s. simpl. unfold suffix_nifti, suffix_dicom.
  rewrite !endswith_append_short by (simpl; lia).
  split; reflexivity.
Qed.

(** *** The theorems at concrete paths *)

Lemma ambiguous_source_witness :
  @generic_load stored_io (host_with ["/data/scan"; "/data/scan.nii.gz"]) "/data/scan" (Some 1)
  = (["/data/scan.nii.gz"; "/data/scan"],
     Raise (ValueError
              "Ambiguous loading state - multiple possible files to load from ['/data/scan.nii.gz', '/data/scan']")).
Proof.
  apply (@ambiguous_source stored_io (host_with ["/data/scan"; "/data/scan.nii.gz"])
           "/data/scan" (Some 1) ["/data/scan.nii.gz"; "/data/scan"]).
  - exact stored_registry_closed.
  - reflexivity.
  - simpl. lia.
Defined.

Lemma classify_after_rename_witness :
  @convert_format_filename stored_io "/data/scan" Member_nifti = Ok "/data/scan.nii.gz"
  /\ @get_data_format stored_io "/data/scan.nii.gz" = Ok Member_nifti.
Proof.
  split; [reflexivity|].
  apply (@classify_after_rename stored_io "/data/scan" "/data/scan.nii.gz" Member_nifti).
  - exact stored_suffix_recognized.
  - reflexivity.
Defined.

Lemma rename_to_own_convention_witness :
  @get_data_format stored_io "/data/scan.nii.gz" = Ok Member_nifti
  /\ @convert_format_filename stored_io "/data/scan.nii.gz" Member_nifti
     = Ok "/data/scan.nii.gz".
Proof.
  split; [reflexivity|].
  apply (@rename_to_own_convention stored_io "/data/scan.nii.gz" Member_nifti).
  - exact stored_registry_closed.
  - reflexivity.
Defined.

Lemma get_data_format_priority_witness :
  @get_data_format stored_io "/data/scan" = Ok Member_dicom
  /\ @get_data_format stored_io "/data/slice.dcm" = Ok Member_dicom
  /\ @get_data_format stored_io "/data/scan.nii.gz" = Ok Member_nifti
  /\ @get_data_format stored_io "/data/scan.txt"
     = Raise (ValueError "Unknown data format for /data/scan.txt").
Proof.
  split; [|split; [|split]].
  - apply (proj1 (@get_data_format_priority stored_io "/data/scan")).
    left. reflexivity.
  - apply (proj1 (@get_data_format_priority stored_io "/data/slice.dcm")).
    right. reflexivity.
  - apply (proj1 (proj2 (@get_data_format_priority stored_io "/data/scan.nii.gz")));
      [discriminate | reflexivity | reflexivity].
  - apply (proj2 (proj2 (@get_data_format_priority stored_io "/data/scan.txt")));
      [discriminate | reflexivity | reflexivity].
Defined.

Lemma rename_between_conventions_witness :
  @convert_format_filename stored_io "/data/scan" Member_nifti = Ok "/data/scan.nii.gz"
  /\ @convert_format_filename stored_io "/data/scan.nii.gz" Member_dicom = Ok "/data/scan"
  /\ @convert_format_filename stored_io "/data/scan.v2.nii.gz" Member_dicom = Ok "/data/scan".
Proof.
  apply (@rename_between_conventions stored_io "/data/scan").
  - exact stored_registry_closed.
  - exact stored_members_distinct.
  - exact stored_suffix_recognized.
Defined.

Lemma unsupported_format_rejected_witness :
  @get_reader stored_io (Other "tiff")
  = Raise (ValueError "Only formats (nifti, dicom) are supported")
  /\ @get_writer stored_io (Other "tiff")
     = Raise (ValueError "Only formats (nifti, dicom) are supported")
  /\ forall p : string,
       @convert_format_filename stored_io p (Other "tiff")
       = Raise (ValueError "Only formats (nifti, dicom) are supported").
Proof.
  apply (@unsupported_format_rejected stored_io (Other "tiff")).
  simpl. intros [Hn | [Hd | []]]; discriminate.
Defined.

Lemma variations_follow_registry_witness :
  exists l,
    @get_filepath_variations stored_io "/data/scan.nii.gz" = Ok l
    /\ List.length l = 2%nat
    /\ Forall2 (fun c q => @convert_format_filename stored_io "/data/scan.nii.gz" c = Ok q)
         [Member_nifti; Member_dicom] l.
Proof.
  apply (@variations_follow_registry stored_io "/data/scan.nii.gz" Member_nifti).
  - exact stored_registry_closed.
  - reflexivity.
Defined.

Lemma volume_count_mismatch_witness :
  @generic_load stored_io (host_with ["/data/scan"]) "/data/scan" (Some 1)
  = (["/data/scan.nii.gz"; "/data/scan"],
     Raise (AssertionError "Expected 1 volumes, got 3"))
  /\ @generic_load stored_io (host_with ["/data/map.nii.gz"]) "/data/map" (Some 2)
     = (["/data/map.nii.gz"; "/data/map"],
        Raise (AssertionError "Expected 2 volumes, got 1"))
  /\ @generic_load stored_io (host_with ["/data/map.nii.gz"]) "/data/map" (Some 0)
     = (["/data/map.nii.gz"; "/data/map"],
        Raise (AssertionError "Expected 0 volumes, got 1")).
Proof.
  split; [|split].
  - apply (proj2 (@volume_count_mismatch stored_io (host_with ["/data/scan"]) "/data/scan"
                    ["/data/scan.nii.gz"; "/data/scan"] (Multiple [1; 2; 3]%nat) 1 eq_refl)
             [1; 2; 3]%nat eq_refl).
    simpl. lia.
  - apply (proj1 (@volume_count_mismatch stored_io (host_with ["/data/map.nii.gz"]) "/data/map"
                    ["/data/map.nii.gz"; "/data/map"] (Single 7%nat) 2 eq_refl)
             7%nat eq_refl).
    lia.
  - apply (proj1 (@volume_count_mismatch stored_io (host_with ["/data/map.nii.gz"]) "/data/map"
                    ["/data/map.nii.gz"; "/data/map"] (Single 7%nat) 0 eq_refl)
             7%nat eq_refl).
    lia.
Defined.

Lemma result_shaping_witness :
  @generic_load stored_io (host_with ["/data/scan"]) "/data/scan" None
  = (["/data/scan.nii.gz"; "/data/scan"], Ok (Multiple [1; 2; 3]%nat))
  /\ @generic_load stored_io (host_with ["/data/one"]) "/data/one" (Some 1)
     = (["/data/one.nii.gz"; "/data/one"], Ok (Single 6%nat))
  /\ @generic_load stored_io (host_with ["/data/map.nii.gz"]) "/data/map" (Some 1)
     = (["/data/map.nii.gz"; "/data/map"], Ok (Single 7%nat))
  /\ @generic_load stored_io (host_with ["/data/pair"]) "/data/pair" (Some 2)
     = (["/data/pair.nii.gz"; "/data/pair"], Ok (Multiple [4; 5]%nat)).
Proof.
  split; [|split; [|split]].
  - apply (proj1 (@result_shaping stored_io (host_with ["/data/scan"]) "/data/scan"
                    ["/data/scan.nii.gz"; "/data/scan"] (Multiple [1; 2; 3]%nat) eq_refl)).
  - apply (proj1 (proj2 (@result_shaping stored_io (host_with ["/data/one"]) "/data/one"
                           ["/data/one.nii.gz"; "/data/one"] (Multiple [6]%nat) eq_refl))).
    reflexivity.
  - apply (proj1 (proj2 (@result_shaping stored_io (host_with ["/data/map.nii.gz"]) "/data/map"
                           ["/data/map.nii.gz"; "/data/map"] (Single 7%nat) eq_refl))).
    reflexivity.
  - apply (proj2 (proj2 (@result_shaping stored_io (host_with ["/data/pair"]) "/data/pair"
                           ["/data/pair.nii.gz"; "/data/pair"] (Multiple [4; 5]%nat) eq_refl)));
      [lia | reflexivity].
Defined.

Lemma unrecognized_before_probe_witness :
  @generic_load stored_io (host_with ["/data/scan.txt"]) "/data/scan.txt" None
  = ([], Raise (ValueError "Unknown data format for /data/scan.txt")).
Proof.
  apply (@unrecognized_before_probe stored_io (host_with ["/data/scan.txt"])
           "/data/scan.txt" None).
  - discriminate.
  - discriminate.
  - reflexivity.
  - reflexivity.
Defined.

Lemma variations_distinct_witness :
  @get_filepath_variations stored_io "/data/scan" = Ok ["/data/scan.nii.gz"; "/data/scan"]
  /\ NoDup ["/data/scan.nii.gz"; "/data/scan"].
Proof.
  split; [reflexivity|].
  apply (@variations_distinct stored_io "/data/scan").
  - exact stored_registry_closed.
  - exact stored_members_distinct.
  - reflexivity.
Defined.

Lemma source_not_found_witness :
  @generic_load stored_io (host_with ["/data/scan"]) "/data/missing" None
  = (["/data/missing.nii.gz"; "/data/missing"],
     Raise (FileNotFoundError "No file associated with basename missing found")).
Proof.
  apply (@source_not_found stored_io (host_with ["/data/scan"]) "/data/missing" None
           ["/data/missing.nii.gz"; "/data/missing"]); reflexivity.
Defined.

Lemma ambiguous_lists_variations_witness :
  exists probed,
    @generic_load stored_io (host_with ["/data/scan"; "/data/scan.nii.gz"]) "/data/scan" None
    = (probed,
       Raise (ValueError
                "Ambiguous loading state - multiple possible files to load from ['/data/scan.nii.gz', '/data/scan']")).
Proof.
  apply (@ambiguous_lists_variations stored_io
           (host_with ["/data/scan"; "/data/scan.nii.gz"]) "/data/scan" None
           ["/data/scan.nii.gz"; "/data/scan"]).
  - reflexivity.
  - simpl. lia.
Defined.

Lemma single_source_dispatch_witness :
  @load_volumes stored_io (host_with ["/data/scan"]) "/data/scan"
  = (["/data/scan.nii.gz"; "/data/scan"], stored_scans DicomReader "/data/scan")
  /\ @load_volumes stored_io (host_with ["/data/map.nii.gz"]) "/data/map"
     = (["/data/map.nii.gz"; "/data/map"], stored_scans NiftiReader "/data/map.nii.gz").
Proof.
  split.
  - apply (proj1 (@single_source_dispatch stored_io (host_with ["/data/scan"])
                    "/data/scan" "/data/scan" ["/data/scan.nii.gz"; "/data/scan"]
                    stored_registry_closed stored_members_distinct eq_refl eq_refl)).
    reflexivity.
  - apply (proj2 (@single_source_dispatch stored_io (host_with ["/data/map.nii.gz"])
                    "/data/map" "/data/map.nii.gz" ["/data/map.nii.gz"; "/data/map"]
                    stored_registry_closed stored_members_distinct eq_refl eq_refl)).
    reflexivity.
Defined.

(** *** The further properties at concrete paths *)

Lemma rename_idempotent_witness :
  @convert_format_filename stored_io "/data/scan.v2.nii.gz" Member_dicom = Ok "/data/scan"
  /\ @convert_format_filename stored_io "/data/scan" Member_dicom = Ok "/data/scan".
Proof.
  split; [reflexivity|].
  apply (@rename_idempotent stored_io "/data/scan.v2.nii.gz" "/data/scan" Member_dicom).
  - exact stored_suffix_recognized.
  - reflexivity.
Defined.

Lemma rename_errors_witness :
  @convert_format_filename stored_io "/data/scan.txt" Member_nifti
  = Raise (ValueError "Unknown data format for /data/scan.txt")
  /\ @get_data_format stored_io "/data/scan.txt"
     = Raise (ValueError "Unknown data format for /data/scan.txt").
Proof.
  split; [reflexivity|].
  destruct (@rename_errors stored_io "/data/scan.txt" Member_nifti
              (ValueError "Unknown data format for /data/scan.txt")
              stored_registry_closed eq_refl)
    as [[Hout _] | (_ & Hfmt & _)].
  - exfalso. apply Hout. simpl. auto.
  - exact Hfmt.
Defined.

Lemma round_trip_directory_witness :
  @convert_format_filename stored_io "/data/scan" Member_nifti = Ok "/data/scan.nii.gz"
  /\ @convert_format_filename stored_io "/data/scan.nii.gz" Member_dicom = Ok "/data/scan".
Proof.
  apply (@round_trip_directory stored_io "/data/scan").
  - exact stored_registry_closed.
  - exact stored_members_distinct.
  - exact stored_suffix_recognized.
  - reflexivity.
  - reflexivity.
Defined.

Lemma round_trip_file_witness :
  @convert_format_filename stored_io "/data/map.nii.gz" Member_dicom = Ok "/data/map"
  /\ @convert_format_filename stored_io "/data/map" Member_nifti = Ok "/data/map.nii.gz".
Proof.
  apply (@round_trip_file stored_io "/data/map.nii.gz" "map").
  - exact stored_registry_closed.
  - exact stored_members_distinct.
  - exact stored_suffix_recognized.
  - reflexivity.
  - reflexivity.
  - reflexivity.
Defined.

Lemma hidden_name_is_directory_witness :
  @get_data_format stored_io "/data/.cache" = Ok Member_dicom
  /\ @get_data_format stored_io "/data/scan" = Ok Member_dicom.
Proof.
  split.
  - apply (@hidden_name_is_directory stored_io "/data/.cache" "." "cache"); reflexivity.
  - apply (@hidden_name_is_directory stored_io "/data/scan" "" "scan"); reflexivity.
Defined.

Lemma variations_contain_path_witness :
  In "/data/scan.nii.gz" ["/data/scan.nii.gz"; "/data/scan"].
Proof.
  apply (@variations_contain_path stored_io "/data/scan.nii.gz").
  - exact stored_registry_closed.
  - reflexivity.
Defined.

Lemma variations_classified_witness :
  Forall2 (fun c q => @get_data_format stored_io q = Ok c)
    [Member_nifti; Member_dicom] ["/data/scan.nii.gz"; "/data/scan"].
Proof.
  apply (@variations_classified stored_io "/data/scan").
  - exact stored_suffix_recognized.
  - reflexivity.
Defined.

Lemma reader_writer_paired_witness :
  @get_writer stored_io Member_dicom = Ok (Some DicomWriter)
  /\ @get_writer stored_io (Other "tiff")
     = Raise (ValueError "Only formats (nifti, dicom) are supported").
Proof.
  split.
  - apply (proj1 (proj1 (proj2 (proj2 (@reader_writer_paired stored_io Member_dicom))))).
    reflexivity.
  - apply (proj1 (proj1 (@reader_writer_paired stored_io (Other "tiff")) _)).
    reflexivity.
Defined.

Lemma probes_follow_variations_witness :
  exists rest,
    ["/data/scan.nii.gz"; "/data/scan"]
    = (fst (@generic_load stored_io (host_with ["/data/scan"]) "/data/scan" None) ++ rest)%list
    /\ (List.length
          (filter (@os_path_exists (host_with ["/data/scan"]))
             (fst (@generic_load stored_io (host_with ["/data/scan"]) "/data/scan" None)))
        <= 2)%nat
    /\ (rest <> [] ->
        snd (@generic_load stored_io (host_with ["/data/scan"]) "/data/scan" None)
        = Raise (ValueError
                   ("Ambiguous loading state - multiple possible files to load from "
                    ++ @str_of_paths (host_with ["/data/scan"])
                         ["/data/scan.nii.gz"; "/data/scan"]))).
Proof.
  apply (proj2 (@probes_follow_variations stored_io (host_with ["/data/scan"])
                  "/data/scan" None)).
  reflexivity.
Defined.

Lemma loaded_count_witness :
  Z.of_nat (List.length (@as_list stored_io (Multiple [4; 5]%nat))) = 2
  /\ (2 = 1 -> exists x, Multiple [4; 5]%nat = Single x)
  /\ (2 <> 1 -> exists xs, Multiple [4; 5]%nat = Multiple xs).
Proof.
  apply (@loaded_count stored_io (host_with ["/data/pair"]) "/data/pair" 2
           ["/data/pair.nii.gz"; "/data/pair"] (Multiple [4; 5]%nat)).
  reflexivity.
Defined.

Lemma expected_only_filters_witness :
  fst (@generic_load stored_io (host_with ["/data/one"]) "/data/one" (Some 1))
  = fst (@generic_load stored_io (host_with ["/data/one"]) "/data/one" None)
  /\ exists v',
       snd (@generic_load stored_io (host_with ["/data/one"]) "/data/one" None) = Ok v'
       /\ @as_list stored_io v' = @as_list stored_io (Single 6%nat).
Proof.
  split.
  - apply (proj1 (@expected_only_filters stored_io (host_with ["/data/one"]) "/data/one" 1)).
  - apply (proj2 (proj2 (@expected_only_filters stored_io (host_with ["/data/one"])
                           "/data/one" 1))).
    reflexivity.
Defined.

Lemma generic_load_errors_witness :
  @generic_load stored_io (host_with ["/data/scan"]) "/data/scan" (Some 2)
  = (["/data/scan.nii.gz"; "/data/scan"], Raise (AssertionError "Expected 2 volumes, got 3"))
  /\ exists n k,
       Some 2 = Some n /\ Z.of_nat k <> n
       /\ AssertionError "Expected 2 volumes, got 3"
          = AssertionError ("Expected " ++ str_of_int n ++ " volumes, got "
                            ++ str_of_int (Z.of_nat k)).
Proof.
  split; [reflexivity|].
  destruct (@generic_load_errors stored_io (host_with ["/data/scan"]) "/data/scan" (Some 2)
              ["/data/scan.nii.gz"; "/data/scan"]
              (AssertionError "Expected 2 volumes, got 3")
              stored_registry_closed stored_suffix_recognized eq_refl)
    as [[Hp _] | [(l & _ & He) | [He | [Hcount | (r & fp & Hr)]]]];
    try discriminate.
  - exact Hcount.
  - exfalso. destruct r; simpl in Hr;
      repeat match type of Hr with
             | (if ?b then _ else _) = _ => destruct b
             end; discriminate.
Defined.

Lemma existing_spelling_selects_reader_witness :
  snd (@load_volumes stored_io (host_with ["/data/scan"]) "/data/scan.nii.gz")
  = Ok (Multiple [1; 2; 3]%nat)
  /\ snd (@load_volumes stored_io (host_with ["/data/map.nii.gz"]) "/data/map")
     = Ok (Single 7%nat).
Proof.
  split.
  - apply (proj2 (@existing_spelling_selects_reader stored_io (host_with ["/data/scan"])
                    "/data/scan.nii.gz" "/data/scan.nii.gz" "/data/scan"
                    stored_registry_closed stored_members_distinct stored_suffix_recognized
                    eq_refl eq_refl)); reflexivity.
  - apply (proj1 (@existing_spelling_selects_reader stored_io (host_with ["/data/map.nii.gz"])
                    "/data/map" "/data/map.nii.gz" "/data/map"
                    stored_registry_closed stored_members_distinct stored_suffix_recognized
                    eq_refl eq_refl)); reflexivity.
Defined.

Lemma spelling_independent_witness :
  @generic_load stored_io (host_with ["/data/scan"]) "/data/scan.nii.gz" (Some 3)
  = @generic_load stored_io (host_with ["/data/scan"]) "/data/scan" (Some 3)
  /\ @generic_load stored_io (host_with ["/data/scan"]) "/data/scan" (Some 3)
     = (["/data/scan.nii.gz"; "/data/scan"], Ok (Multiple [1; 2; 3]%nat)).
Proof.
  split; [|reflexivity].
  apply (proj2 (proj2 (@spelling_independent stored_io (host_with ["/data/scan"])
                         "/data/scan" (Some 3)
                         stored_registry_closed stored_members_distinct
                         stored_suffix_recognized eq_refl eq_refl))).
  right. reflexivity.
Defined.

Lemma foreign_format_blocks_load_witness :
  @generic_load extended_io (host_with ["/data/scan"]) "/data/scan" None
  = ([], Raise (NotImplementedError "dicom --> tiff not implemented."))
  /\ @get_reader extended_io (Other "tiff") = Ok None
  /\ @get_writer extended_io (Other "tiff") = Ok None
  /\ forall p expected,
       exists err,
         @generic_load extended_io (host_with ["/data/scan"]) p expected = ([], Raise err)
         /\ (err = ValueError ("Unknown data format for " ++ p)
             \/ exists msg, err = NotImplementedError msg).
Proof.
  split; [reflexivity|].
  apply (@foreign_format_blocks_load extended_io (host_with ["/data/scan"]) (Other "tiff")).
  - simpl. auto.
  - discriminate.
  - discriminate.
Defined.
